(** * utils.py: download and extract helpers

    A shallow embedding of [src/utils.py] (download_file, unzip_file,
    extract_from_location, download_and_extract) and the properties its
    specification states about them.

    The four functions are glue around three collaborators: the [requests]
    HTTP client, the [zipfile] decoder and the host file system.  The file
    system is a finite map from paths to contents; the HTTP server, the zip
    decoder and the failures the operating system may report are fields of a
    [World] record over which every theorem quantifies.  Each function is a
    computation that takes the file system, returns a value or a Python
    exception, the new file system, and the list of external events it
    performed, in order. *)

From Stdlib Require Import ZArith Lia String Ascii.
From Stdlib Require Strings.Byte.
From stdpp Require Import base option list gmap strings pretty.

Local Open Scope Z_scope.
Local Open Scope string_scope.

(** ** Python strings *)

Module PyStr.

(** [s.split(sep)] for a one-character separator: the pieces between the
    occurrences of [sep], never an empty list. *)
Fixpoint split (sep : ascii) (s : string) : list string :=
  match s with
  | EmptyString => [EmptyString]
  | String c rest =>
      if Ascii.eqb c sep then EmptyString :: split sep rest
      else match split sep rest with
           | piece :: pieces => String c piece :: pieces
           | [] => [String c EmptyString]
           end
  end.

(** [l[-1]]: the last element, [None] standing for IndexError. *)
Definition index_last {A} (l : list A) : option A := last l.

(** [c in s]. *)
Fixpoint contains (c : ascii) (s : string) : bool :=
  match s with
  | EmptyString => false
  | String d rest => Ascii.eqb d c || contains c rest
  end.

(** [s * n]: repetition, the empty string for [n <= 0]. *)
Definition repeat (s : string) (n : Z) : string :=
  Nat.iter (Z.to_nat n) (String.append s) EmptyString.

(** [len(s)]. *)
Definition len (s : string) : Z := Z.of_nat (String.length s).

End PyStr.

Definition slash : ascii := "/"%char.

(** [url.split('/')[-1]] (utils.py line 27). *)
Definition derive_filename (url : string) : option string :=
  PyStr.index_last (PyStr.split slash url).

(** ** Python numbers: [int(a / b)] on integers

    [a / b] on two Python ints is true division: the exact quotient rounded
    to the nearest IEEE 754 binary64 value, ties to even; [int(...)] then
    truncates toward zero.  Both steps are written out on [Z]: a positive
    binary64 value is [m * 2^e] with [m <= 2^53] and [e >= -1074]. *)

Module PyNum.

Local Open Scope Z_scope.

Inductive arith_result :=
| Value (z : Z)
| ZeroDivisionError
| OverflowError.

(** Nearest integer to [n / d], ties to even ([n >= 0], [d > 0]). *)
Definition rne_div (n d : Z) : Z :=
  let q := n / d in
  let r := n mod d in
  if 2 * r <? d then q
  else if d <? 2 * r then q + 1
  else if Z.even q then q else q + 1.

(** [floor (log2 (a / b))] for [a, b > 0]. *)
Definition floor_log2_ratio (a b : Z) : Z :=
  let k := Z.log2 a - Z.log2 b in
  let below :=
    if 0 <=? k then a <? b * 2 ^ k else a * 2 ^ (- k) <? b in
  if below then k - 1 else k.

(** Exponent of the unit in the last place of the binary64 nearest to
    [a / b]: 53 significant bits, never below the subnormal exponent. *)
Definition ulp_exponent (a b : Z) : Z :=
  Z.max (floor_log2_ratio a b - 52) (-1074).

(** Significand of [a / b] rounded at exponent [e]. *)
Definition significand (a b e : Z) : Z :=
  if 0 <=? e then rne_div a (b * 2 ^ e) else rne_div (a * 2 ^ (- e)) b.

(** [int(m * 2^e)] for [m >= 0]. *)
Definition truncate (m e : Z) : Z :=
  if 0 <=? e then m * 2 ^ e else m / 2 ^ (- e).

(** [int(a / b)]. *)
Definition int_truediv (a b : Z) : arith_result :=
  if b =? 0 then ZeroDivisionError
  else if a =? 0 then Value 0
  else
    let e := ulp_exponent (Z.abs a) (Z.abs b) in
    let m := significand (Z.abs a) (Z.abs b) e in
    if (0 <=? e) && (2 ^ 1024 <=? m * 2 ^ e) then OverflowError
    else Value (Z.sgn a * Z.sgn b * truncate m e).

End PyNum.

Local Open Scope Z_scope.

(** ** Exceptions *)

(** The exception classes that reach this module.  [HTTPError],
    [ConnectionError], [Timeout] and [ChunkedEncodingError] are subclasses of
    [requests.exceptions.RequestException]; all of them are subclasses of
    [Exception]. *)
Inductive exn_class :=
| HTTPError
| ConnectionError
| Timeout
| ChunkedEncodingError
| BadZipFile
| FileNotFoundError
| PermissionError
| OSError
| IndexError
| ZeroDivisionError
| OverflowError.

Global Instance exn_class_eq_dec : EqDecision exn_class.
Proof. solve_decision. Defined.

(** An exception object: its class and [str(e)]. *)
Record exn := Exn { exn_cls : exn_class; exn_str : string }.

Global Instance exn_eq_dec : EqDecision exn.
Proof. solve_decision. Defined.

(** [isinstance(e, requests.exceptions.RequestException)]. *)
Definition is_RequestException (e : exn) : bool :=
  match exn_cls e with
  | HTTPError | ConnectionError | Timeout | ChunkedEncodingError => true
  | _ => false
  end.

(** [isinstance(e, zipfile.BadZipFile)]. *)
Definition is_BadZipFile (e : exn) : bool :=
  match exn_cls e with
  | BadZipFile => true
  | _ => false
  end.

(** [isinstance(e, Exception)]. *)
Definition is_Exception (e : exn) : bool := true.

(** ** The outside world *)

Abbreviation byte := Corelib.Init.Byte.byte.

Global Instance byte_eq_dec : EqDecision byte := Stdlib.Strings.Byte.byte_eq_dec.

Abbreviation bytes := (list byte).

(** What iterating a response body yields: the chunks received, then the
    end of the stream or the exception that interrupts it. *)
Record stream := Stream { chunks : list bytes; broken : option exn }.

(** A [requests.Response] obtained with [stream=True]. *)
Record response := Response {
  status_code : Z;
  reason : string;
  (** The value of the [content-length] header when the response has one,
      as [int(...)] reads it; the header is taken to hold a decimal
      integer, as HTTP requires. *)
  content_length : option Z;
  (** [response.iter_content(chunk_size)]. *)
  iter_content : Z -> stream;
}.

(** A member of a zip archive as [extractall] meets it: its name, the bytes
    written for it, and the message of the [BadZipFile] raised once they are
    written when the member is damaged (a bad CRC-32, say). *)
Record member := Member {
  m_name : string;
  m_data : bytes;
  m_damage : option string;
}.

Record World := {
  (** [requests.get(url, stream=True)]: an exception or a response. *)
  http_get : string -> exn + response;
  (** [open(path, 'wb')]: the error the operating system reports, if any. *)
  open_error : string -> option exn;
  (** [zipfile.ZipFile(path, 'r')] on a file with these contents: the
      message of [BadZipFile], or the members of the archive. *)
  zip_parse : bytes -> string + list member;
  (** [os.remove(path)] on an existing file: the error the operating system
      reports, if any. *)
  remove_error : string -> option exn;
}.

(** ** Events and computations *)

Inductive event :=
| HttpGet (url : string)
| FileOpenW (path : string)
| FileWrite (path : string) (data : bytes)
| PathExists (path : string)
| ZipOpen (path : string)
| ZipExtract (path : string)
| Remove (path : string)
| Print (text : string).

Global Instance event_eq_dec : EqDecision event.
Proof. solve_decision. Defined.

Abbreviation fsys := (gmap string bytes).

(** A computation: from a file system to a result (an exception or a value),
    the file system it leaves and the events it performed. *)
Definition M (A : Type) : Type := fsys -> (exn + A) * fsys * list event.

Definition ret {A} (x : A) : M A := fun fs => (inr x, fs, []).

Definition raise {A} (e : exn) : M A := fun fs => (inl e, fs, []).

Definition bind {A B} (m : M A) (k : A -> M B) : M B :=
  fun fs =>
    match m fs with
    | (inl e, fs1, t1) => (inl e, fs1, t1)
    | (inr x, fs1, t1) =>
        match k x fs1 with
        | (r, fs2, t2) => (r, fs2, (t1 ++ t2)%list)
        end
    end.

(** [try: body / except cls as e: handler(e)], [catches] deciding
    [isinstance(e, cls)]. *)
Definition try_except {A} (body : M A) (catches : exn -> bool) (handler : exn -> M A) : M A :=
  fun fs =>
    match body fs with
    | (inl e, fs1, t1) =>
        if catches e then
          match handler e fs1 with
          | (r, fs2, t2) => (r, fs2, (t1 ++ t2)%list)
          end
        else (inl e, fs1, t1)
    | (inr x, fs1, t1) => (inr x, fs1, t1)
    end.

Declare Scope py_scope.
Delimit Scope py_scope with py.
Notation "x <- m ;; k" := (bind m (fun x => k))
  (at level 100, m at next level, right associativity) : py_scope.
Notation "m ;;; k" := (bind m (fun _ => k))
  (at level 100, right associativity) : py_scope.
Local Open Scope py_scope.

Definition emit (ev : event) : M unit := fun fs => (inr tt, fs, [ev]).

Definition newline : string := String (ascii_of_nat 10) EmptyString.
Definition carriage_return : string := String (ascii_of_nat 13) EmptyString.

(** [print(s)] and [print(s, end='')]. *)
Definition print (s : string) : M unit := emit (Print (s +:+ newline)).
Definition print_noend (s : string) : M unit := emit (Print s).

(** The handler all four functions share: [print(f"<context>{e}")] and
    then [raise]. *)
Definition log_and_reraise {A} (context : string) (e : exn) : M A :=
  print (context +:+ exn_str e) ;;; raise e.

(** Lifting of the arithmetic of [PyNum]. *)
Definition int_truediv (a b : Z) : M Z :=
  match PyNum.int_truediv a b with
  | PyNum.Value z => ret z
  | PyNum.ZeroDivisionError => raise (Exn ZeroDivisionError "division by zero")
  | PyNum.OverflowError =>
      raise (Exn OverflowError "integer division result too large for a float")
  end.

Definition get_fs : M fsys := fun fs => (inr fs, fs, []).
Definition modify_fs (f : fsys -> fsys) : M unit := fun fs => (inr tt, f fs, []).

(** ** The program *)

Section Program.

Variable w : World.

(** *** Library calls *)

(** [requests.get(url, stream=True)]. *)
Definition requests_get (url : string) : M response :=
  emit (HttpGet url) ;;;
  match http_get w url with
  | inl e => raise e
  | inr r => ret r
  end.

(** [response.raise_for_status()]: [HTTPError] for the status codes 400
    to 599, nothing otherwise. *)
Definition raise_for_status (url : string) (r : response) : M unit :=
  let code := status_code r in
  if (400 <=? code) && (code <? 500) then
    raise (Exn HTTPError
             (pretty code +:+ " Client Error: " +:+ reason r +:+ " for url: " +:+ url))
  else if (500 <=? code) && (code <? 600) then
    raise (Exn HTTPError
             (pretty code +:+ " Server Error: " +:+ reason r +:+ " for url: " +:+ url))
  else ret tt.

(** [response.content]: the whole body, read in chunks of 10240 bytes. *)
Definition response_content (r : response) : M bytes :=
  let s := iter_content r 10240 in
  match broken s with
  | Some e => raise e
  | None => ret (concat (chunks s))
  end.

(** [open(path, 'wb')]: the file is created or truncated. *)
Definition open_wb (path : string) : M unit :=
  emit (FileOpenW path) ;;;
  match open_error w path with
  | Some e => raise e
  | None => modify_fs <[path := []]>
  end.

(** [f.write(data)] on the file opened at [path]; what is written is on
    disk when the [with] block is left, on every exit path. *)
Definition file_write (path : string) (data : bytes) : M unit :=
  emit (FileWrite path data) ;;;
  modify_fs (fun fs => <[path := (default [] (fs !! path) ++ data)%list]> fs).

(** [os.path.exists(path)]. *)
Definition os_path_exists (path : string) : M bool :=
  emit (PathExists path) ;;;
  fs <- get_fs ;;
  ret (bool_decide (is_Some (fs !! path))).

(** [zipfile.ZipFile(path, 'r')]. *)
Definition ZipFile (path : string) : M (list member) :=
  emit (ZipOpen path) ;;;
  fs <- get_fs ;;
  match fs !! path with
  | None =>
      raise (Exn FileNotFoundError
               ("[Errno 2] No such file or directory: '" +:+ path +:+ "'"))
  | Some content =>
      match zip_parse w content with
      | inl msg => raise (Exn BadZipFile msg)
      | inr members => ret members
      end
  end.

(** Where a member lands under [extract_to]. *)
Definition target_path (extract_to name : string) : string :=
  extract_to +:+ "/" +:+ name.

(** [zip_ref.extractall(extract_to)]: the members in archive order. *)
Fixpoint extractall (extract_to : string) (members : list member) : M unit :=
  match members with
  | [] => ret tt
  | m :: rest =>
      let target := target_path extract_to (m_name m) in
      emit (ZipExtract target) ;;;
      modify_fs <[target := m_data m]> ;;;
      match m_damage m with
      | Some msg => raise (Exn BadZipFile msg)
      | None => extractall extract_to rest
      end
  end.

(** [os.remove(path)]. *)
Definition os_remove (path : string) : M unit :=
  emit (Remove path) ;;;
  fs <- get_fs ;;
  match fs !! path with
  | None =>
      raise (Exn FileNotFoundError
               ("[Errno 2] No such file or directory: '" +:+ path +:+ "'"))
  | Some _ =>
      match remove_error w path with
      | Some e => raise e
      | None => modify_fs (delete path)
      end
  end.

(** *** download_file (utils.py lines 11-63) *)

(** Lines 50-51. *)
Definition progress_done (downloaded total_size : Z) : M Z :=
  int_truediv (50 * downloaded) total_size.

Definition progress_percent (downloaded total_size : Z) : M Z :=
  int_truediv (100 * downloaded) total_size.

(** Line 52. *)
Definition progress_bar (done : Z) : string :=
  PyStr.repeat "=" done +:+ PyStr.repeat " " (50 - done).

(** Line 53. *)
Definition progress_line (bar : string) (percent downloaded total_size : Z) : string :=
  carriage_return +:+ "[" +:+ bar +:+ "] " +:+ pretty percent +:+ "% ("
    +:+ pretty downloaded +:+ "/" +:+ pretty total_size +:+ " bytes)".

(** The [for chunk in response.iter_content(...)] loop, lines 45-53, on
    the chunks the stream delivers; returns [downloaded]. *)
Fixpoint download_chunks (filename : string) (total_size : Z) (show_progress : bool)
    (cs : list bytes) (downloaded : Z) : M Z :=
  match cs with
  | [] => ret downloaded
  | chunk :: rest =>
      let downloaded := downloaded + Z.of_nat (length chunk) in
      file_write filename chunk ;;;
      (if show_progress then
         done <- progress_done downloaded total_size ;;
         percent <- progress_percent downloaded total_size ;;
         let bar := progress_bar done in
         print_noend (progress_line bar percent downloaded total_size)
       else ret tt) ;;;
      download_chunks filename total_size show_progress rest downloaded
  end.

(** Lines 26-27. *)
Definition resolve_filename (url : string) (filename : option string) : M string :=
  match filename with
  | Some f => ret f
  | None =>
      match derive_filename url with
      | Some f => ret f
      | None => raise (Exn IndexError "list index out of range")
      end
  end.

(** Lines 33-59: what is done with the response. *)
Definition save_response (url filename : string) (show_progress : bool)
    (response : response) : M string :=
  raise_for_status url response ;;;
  let total_size := default 0 (content_length response) in
  open_wb filename ;;;
  (if (total_size =? 0) || negb show_progress then
     content <- response_content response ;;
     file_write filename content ;;;
     print ("Downloaded " +:+ filename)
   else
     let body := iter_content response 8192 in
     downloaded <- download_chunks filename total_size show_progress (chunks body) 0 ;;
     match broken body with
     | Some e => raise e
     | None => ret tt
     end ;;;
     (if show_progress then print "" else ret tt) ;;;
     print ("Download complete: " +:+ filename)) ;;;
  ret filename.

(** The body of the [try], lines 32-59. *)
Definition download_file_body (url filename : string) (show_progress : bool) : M string :=
  response <- requests_get url ;;
  save_response url filename show_progress response.

Definition download_file (url : string) (filename : option string)
    (show_progress : bool) : M string :=
  filename <- resolve_filename url filename ;;
  print ("Downloading " +:+ filename +:+ " from " +:+ url +:+ "...") ;;;
  try_except (download_file_body url filename show_progress)
    is_RequestException (log_and_reraise "Error downloading file: ").

(** *** unzip_file (lines 66-95) *)

(** The body of the [try], lines 87-91. *)
Definition unzip_file_body (zip_path extract_to : string) : M string :=
  zip_ref <- ZipFile zip_path ;;
  extractall extract_to zip_ref ;;;
  print ("Extraction complete to: " +:+ extract_to) ;;;
  ret extract_to.

Definition unzip_file (zip_path extract_to : string) : M string :=
  found <- os_path_exists zip_path ;;
  if negb found then
    raise (Exn FileNotFoundError ("Zip file not found: " +:+ zip_path))
  else
    print ("Extracting " +:+ zip_path +:+ "...") ;;;
    try_except (unzip_file_body zip_path extract_to)
      is_BadZipFile (log_and_reraise "Error: Invalid zip file: ").

(** *** extract_from_location (lines 98-126) *)

(** Lines 118-120 and 154-156. *)
Definition cleanup_stage (cleanup : bool) (path : string) : M unit :=
  if cleanup then
    os_remove path ;;;
    print ("Cleaned up: " +:+ path)
  else ret tt.

Definition extract_from_location_body (zip_path extract_to : string) (cleanup : bool)
    : M string :=
  extract_dir <- unzip_file zip_path extract_to ;;
  cleanup_stage cleanup zip_path ;;;
  ret extract_dir.

Definition extract_from_location (zip_path extract_to : string) (cleanup : bool)
    : M string :=
  try_except (extract_from_location_body zip_path extract_to cleanup)
    is_Exception (log_and_reraise "Error in extract_from_location: ").

(** *** download_and_extract (lines 129-162) *)

Definition download_and_extract_body (url : string) (filename : option string)
    (extract_to : string) (cleanup show_progress : bool) : M (string * string) :=
  downloaded_file <- download_file url filename show_progress ;;
  extract_dir <- unzip_file downloaded_file extract_to ;;
  cleanup_stage cleanup downloaded_file ;;;
  ret (downloaded_file, extract_dir).

Definition download_and_extract (url : string) (filename : option string)
    (extract_to : string) (cleanup show_progress : bool) : M (string * string) :=
  try_except (download_and_extract_body url filename extract_to cleanup show_progress)
    is_Exception (log_and_reraise "Error in download_and_extract: ").

End Program.

(** ** A concrete world

    One server with an archive of two members, a page that is missing, a
    response that is neither a success nor an error status, and a stream
    that breaks; a zip decoder that accepts one byte string only. *)

Module Demo.

Import Corelib.Init.Byte.

Definition archive_bytes : bytes := [x50; x4b; x03; x04].
Definition damaged_bytes : bytes := [x50; x4b; x00; x00].
Definition text_bytes : bytes := [x68; x69].

Definition archive_members : list member :=
  [ Member "a.txt" [x61] None; Member "sub/b.txt" [x62] None ].

Definition damaged_members : list member :=
  [ Member "a.txt" [x61] None;
    Member "bad.txt" [] (Some "Bad CRC-32 for file 'bad.txt'");
    Member "c.txt" [x63] None ].

Definition ok_stream (data : bytes) : stream :=
  Stream [take 2 data; drop 2 data] None.

Definition broken_stream : stream :=
  Stream [[x50; x4b]] (Some (Exn ChunkedEncodingError "Connection broken")).

Definition http (url : string) : exn + response :=
  if String.eqb url "http://h/data.zip" then
    inr (Response 200 "OK" (Some 4) (fun _ => ok_stream archive_bytes))
  else if String.eqb url "http://h/missing.zip" then
    inr (Response 404 "Not Found" (Some 2) (fun _ => ok_stream text_bytes))
  else if String.eqb url "http://h/choices.zip" then
    inr (Response 300 "Multiple Choices" (Some 2) (fun _ => ok_stream text_bytes))
  else if String.eqb url "http://h/broken.zip" then
    inr (Response 200 "OK" (Some 4) (fun _ => broken_stream))
  else if String.eqb url "http://h/dir/" then
    inr (Response 200 "OK" None (fun _ => ok_stream text_bytes))
  else inl (Exn ConnectionError "Failed to establish a new connection").

Definition world : World := {|
  http_get := http;
  open_error path :=
    if String.eqb path "" then
      Some (Exn FileNotFoundError "[Errno 2] No such file or directory: ''")
    else None;
  zip_parse content :=
    if decide (content = archive_bytes) then inr archive_members
    else if decide (content = damaged_bytes) then inr damaged_members
    else inl "File is not a zip file";
  remove_error path :=
    if String.eqb path "locked.zip" then
      Some (Exn PermissionError "[Errno 13] Permission denied: 'locked.zip'")
    else None;
|}.

Definition disk : fsys :=
  {[ "data.zip" := archive_bytes; "locked.zip" := archive_bytes;
     "damaged.zip" := damaged_bytes; "notes.txt" := text_bytes ]}.

End Demo.

(** ** Observations on a run *)

Definition result_of {A} (x : (exn + A) * fsys * list event) : exn + A := x.1.1.
Definition disk_of {A} (x : (exn + A) * fsys * list event) : fsys := x.1.2.
Definition events_of {A} (x : (exn + A) * fsys * list event) : list event := x.2.

(** What was written to standard output. *)
Definition stdout (evs : list event) : list string :=
  omap (fun ev => match ev with Print text => Some text | _ => None end) evs.

(** The paths [os.remove] was called on. *)
Definition removed (evs : list event) : list string :=
  omap (fun ev => match ev with Remove path => Some path | _ => None end) evs.

(** The URLs requested. *)
Definition requested (evs : list event) : list string :=
  omap (fun ev => match ev with HttpGet url => Some url | _ => None end) evs.

(** The three stages of the pipeline and the stage an event belongs to;
    output belongs to none. *)
Inductive stage := Download | Extract | Cleanup.

Global Instance stage_eq_dec : EqDecision stage.
Proof. solve_decision. Defined.

Definition stage_of (ev : event) : option stage :=
  match ev with
  | HttpGet _ | FileOpenW _ | FileWrite _ _ => Some Download
  | PathExists _ | ZipOpen _ | ZipExtract _ => Some Extract
  | Remove _ => Some Cleanup
  | Print _ => None
  end.

(** An event of stage [s], or output. *)
Definition in_stage (s : stage) (ev : event) : Prop :=
  stage_of ev = Some s \/ stage_of ev = None.

(** The events of each stage. *)
Definition write_event (filename : string) (ev : event) : Prop :=
  match ev with
  | Print _ => True
  | FileOpenW path | FileWrite path _ => path = filename
  | _ => False
  end.

Definition extract_event (ev : event) : Prop :=
  match ev with
  | PathExists _ | ZipOpen _ | ZipExtract _ | Print _ => True
  | _ => False
  end.

Definition cleanup_event (target : string) (ev : event) : Prop :=
  match ev with
  | Remove path => path = target
  | Print _ => True
  | _ => False
  end.

(** The local file name [download_file] works on. *)
Definition local_name (url : string) (filename : option string) : string :=
  match filename with
  | Some f => f
  | None => default EmptyString (derive_filename url)
  end.

(** The bytes a stream delivers before it ends or breaks. *)
Definition received (s : stream) : bytes := concat (chunks s).

(** The text of the line a handler prints. *)
Definition logged (context : string) (e : exn) : event :=
  Print ((context +:+ exn_str e) +:+ newline).

(** A computation keeps relation [R] between the file system it starts from
    and the one it leaves, and performs only events satisfying [P]. *)
Definition respects (R : fsys -> fsys -> Prop) (P : event -> Prop) {A} (m : M A) : Prop :=
  forall fs, R fs (disk_of (m fs)) /\ Forall P (events_of (m fs)).

(** No constraint on the file system. *)
Definition any_change : fsys -> fsys -> Prop := fun _ _ => True.

(** No path is lost. *)
Definition keeps_paths (fs fs' : fsys) : Prop :=
  forall path, is_Some (fs !! path) -> is_Some (fs' !! path).

(** The members [extractall] reaches: up to and including the first damaged
    one. *)
Fixpoint reached (members : list member) : list member :=
  match members with
  | [] => []
  | m :: rest =>
      match m_damage m with
      | Some _ => [m]
      | None => m :: reached rest
      end
  end.

(** The message of the first damaged member. *)
Fixpoint first_damage (members : list member) : option string :=
  match members with
  | [] => None
  | m :: rest =>
      match m_damage m with
      | Some msg => Some msg
      | None => first_damage rest
      end
  end.

(** The file system once these members are written under [extract_to]. *)
Definition write_members (extract_to : string) (members : list member) (fs : fsys) : fsys :=
  foldl (fun acc m => <[target_path extract_to (m_name m) := m_data m]> acc) fs members.


(** What the decoder reports on a container that is not well formed. *)
Definition zip_defect (w : World) (content : bytes) : option string :=
  match zip_parse w content with
  | inl msg => Some msg
  | inr members => first_damage members
  end.

(** The members reached in a file with these contents. *)
Definition zip_reached (w : World) (content : bytes) : list member :=
  match zip_parse w content with
  | inl _ => []
  | inr members => reached members
  end.

(** The total size [download_file] reads from the response, and whether it
    takes the single-write path of lines 38-40. *)
Definition total_size_of (r : response) : Z := default 0 (content_length r).

Definition single_write (r : response) (show_progress : bool) : bool :=
  (total_size_of r =? 0) || negb show_progress.

(** The statuses [raise_for_status] rejects. *)
Definition is_error_status (code : Z) : bool := (400 <=? code) && (code <? 600).

(** ** The script entry and further observations *)

(** The defaults of the keyword arguments [extract_to] and [cleanup]. *)
Definition default_extract_to : string := ".".
Definition default_cleanup : bool := false.

(** Lines 165-171: what running the module as a script does. *)
Definition main (w : World) : M string :=
  extract_from_location w "stereo_vision_data.zip" default_extract_to default_cleanup.

(** What extracting these members leaves at [path]: the data of the last
    member that lands there, if any. *)
Fixpoint written (extract_to : string) (members : list member) (path : string)
    : option bytes :=
  match members with
  | [] => None
  | m :: rest =>
      match written extract_to rest path with
      | Some data => Some data
      | None =>
          if decide (target_path extract_to (m_name m) = path)
          then Some (m_data m) else None
      end
  end.

(** Two file systems that agree on every path but [filename]. *)
Definition same_outside (filename : string) (fs fs' : fsys) : Prop :=
  forall path, path <> filename -> fs' !! path = fs !! path.

(** No constraint on the events. *)
Definition any_event : event -> Prop := fun _ => True.


(** The first line of output of [download_file] and of [unzip_file]. *)
Definition downloading_line (filename url : string) : string :=
  ("Downloading " +:+ filename +:+ " from " +:+ url +:+ "...") +:+ newline.


(** ** Facts on splitting *)

Section SplitFacts.

Variable sep : ascii.

Lemma split_nonempty (s : string) : PyStr.split sep s ≠ [].
Proof.
  destruct s as [|c rest]; simpl; [done|].
  destruct (Ascii.eqb c sep); [done|].
  destruct (PyStr.split sep rest); done.
Qed.

Lemma split_no_sep (s : string) :
  PyStr.contains sep s = false -> PyStr.split sep s = [s].
Proof.
  induction s as [|c rest IH]; simpl; [done|].
  intros H. apply orb_false_iff in H as [Hc Hrest].
  rewrite Hc, (IH Hrest). done.
Qed.

(** Splitting distributes over a separator occurrence. *)
Lemma split_app (pre suf : string) :
  PyStr.split sep (pre ++ String sep suf)
  = (PyStr.split sep pre ++ PyStr.split sep suf)%list.
Proof.
  induction pre as [|c pre IH]; simpl.
  - by rewrite Ascii.eqb_refl.
  - rewrite IH. destruct (Ascii.eqb c sep); [done|].
    destruct (PyStr.split sep pre) as [|p ps] eqn:E; [by apply split_nonempty in E|].
    done.
Qed.

Lemma last_split_app (pre suf : string) :
  last (PyStr.split sep (pre ++ String sep suf)) = last (PyStr.split sep suf).
Proof.
  rewrite split_app.
  destruct (PyStr.split sep suf) as [|q qs] eqn:E; [by apply split_nonempty in E|].
  rewrite last_app.
  destruct (last (q :: qs)) as [x|] eqn:El; [done|].
  by apply last_None in El.
Qed.

End SplitFacts.


(** ** Facts on [int(a / b)] *)

Section Numerics.

Import PyNum.

Lemma rne_div_floor_or_next (n d : Z) :
  0 < d ->
  rne_div n d = n / d \/ (rne_div n d = n / d + 1 /\ d <= 2 * (n mod d)).
Proof.
  intros Hd. unfold rne_div.
  destruct (Z.ltb_spec (2 * (n mod d)) d); [by left|].
  destruct (Z.ltb_spec d (2 * (n mod d))); [by right|].
  destruct (Z.even (n / d)); [by left | by right].
Qed.

Lemma rne_div_multiple (k d : Z) : 0 < d -> rne_div (k * d) d = k.
Proof.
  intros Hd. unfold rne_div.
  rewrite Z.mod_mul, Z.div_mul by lia.
  destruct (Z.ltb_spec (2 * 0) d); [done | lia].
Qed.

(** Rounding at a step finer than [1 / (2 b)] does not reach the next
    integer: the truncation of the rounded quotient is the floor. *)
Lemma rounded_quotient_floor (a b P : Z) :
  0 <= a -> 0 < b -> b < 2 * P ->
  rne_div (a * P) b / P = a / b.
Proof.
  intros Ha Hb HP.
  assert (0 < P) as HP0 by lia.
  pose proof (Z.div_mod a b ltac:(lia)) as Hab.
  pose proof (Z.mod_pos_bound a b Hb) as Hr.
  set (q := a / b) in *. set (r := a mod b) in *.
  pose proof (Z.div_mod (r * P) b ltac:(lia)) as Hrp.
  pose proof (Z.mod_pos_bound (r * P) b Hb) as Hv.
  set (u := r * P / b) in *. set (v := (r * P) mod b) in *.
  assert (0 <= u) as Hu0 by (apply Z.div_pos; nia).
  assert (u < P) as HuP by (apply Z.div_lt_upper_bound; nia).
  assert (a * P = b * (q * P + u) + v) as Hn by nia.
  assert (a * P / b = q * P + u) as Hdiv
    by (symmetry; apply (Z.div_unique_pos _ _ _ v); lia).
  assert ((a * P) mod b = v) as Hmod
    by (symmetry; apply (Z.mod_unique_pos _ _ (q * P + u)); lia).
  symmetry.
  destruct (rne_div_floor_or_next (a * P) b Hb) as [-> | [-> Hup]].
  - rewrite Hdiv. apply (Z.div_unique_pos _ _ _ u); lia.
  - rewrite Hdiv. rewrite Hmod in Hup.
    assert (u + 1 < P) as Hnext.
    { destruct (Z.eq_dec u (P - 1)) as [Heq|]; [|lia].
      exfalso. assert (v = b - (b - r) * P) as Hveq by nia. nia. }
    apply (Z.div_unique_pos _ _ _ (u + 1)); lia.
Qed.

Lemma floor_log2_ratio_small (a b : Z) :
  0 < a -> 0 < b -> a < 128 * b -> floor_log2_ratio a b <= 6.
Proof.
  intros Ha Hb Hab. unfold floor_log2_ratio.
  pose proof (Z.log2_spec a Ha) as [Hla Hua].
  pose proof (Z.log2_spec b Hb) as [Hlb Hub].
  pose proof (Z.log2_nonneg a). pose proof (Z.log2_nonneg b).
  set (la := Z.log2 a) in *. set (lb := Z.log2 b) in *.
  assert (la - lb <= 7) as Hk.
  { destruct (Z_le_gt_dec (la - lb) 7) as [|Hgt]; [done|exfalso].
    assert (2 ^ (lb + 8) <= 2 ^ la) by (apply Z.pow_le_mono_r; lia).
    replace (Z.succ lb) with (lb + 1) in Hub by lia.
    rewrite Z.pow_add_r in * by lia. change (2 ^ 8) with 256 in *.
    change (2 ^ 1) with 2 in *. lia. }
  destruct (Z.leb_spec 0 (la - lb)) as [Hpos|Hneg].
  - destruct (Z.ltb_spec a (b * 2 ^ (la - lb))) as [|Hge]; [lia|].
    destruct (Z.eq_dec (la - lb) 7) as [Heq|]; [|lia].
    rewrite Heq in Hge. change (2 ^ 7) with 128 in Hge. lia.
  - destruct (Z.ltb _ b); lia.
Qed.

Lemma ulp_exponent_small (a b : Z) :
  0 < a -> 0 < b -> a < 128 * b -> -1074 <= ulp_exponent a b <= -46.
Proof.
  intros Ha Hb Hab. unfold ulp_exponent.
  pose proof (floor_log2_ratio_small a b Ha Hb Hab). lia.
Qed.

Lemma int_truediv_below (a b : Z) :
  0 < a -> 0 < b -> a < 128 * b ->
  int_truediv a b
  = Value (rne_div (a * 2 ^ (- ulp_exponent a b)) b / 2 ^ (- ulp_exponent a b)).
Proof.
  intros Ha Hb Hab. unfold int_truediv.
  destruct (Z.eqb_spec b 0); [lia|]. destruct (Z.eqb_spec a 0); [lia|].
  rewrite (Z.abs_eq a), (Z.abs_eq b) by lia.
  pose proof (ulp_exponent_small a b Ha Hb Hab) as He.
  unfold significand, truncate.
  destruct (Z.leb_spec 0 (ulp_exponent a b)); [lia|]. simpl.
  rewrite (Z.sgn_pos a), (Z.sgn_pos b) by lia. f_equal. lia.
Qed.

(** Below 2^47 the float quotient truncates to the integer quotient. *)
Lemma int_truediv_floor (a b : Z) :
  0 <= a -> 0 < b -> a < 128 * b -> b < 2 ^ 47 ->
  int_truediv a b = Value (a / b).
Proof.
  intros Ha Hb Hab Hsmall.
  destruct (Z.eq_dec a 0) as [->|].
  { unfold int_truediv. destruct (Z.eqb_spec b 0); [lia|]. done. }
  rewrite int_truediv_below by lia. f_equal.
  pose proof (ulp_exponent_small a b ltac:(lia) Hb Hab) as He.
  apply rounded_quotient_floor; [lia..|].
  assert (2 ^ 46 <= 2 ^ (- ulp_exponent a b)) by (apply Z.pow_le_mono_r; lia).
  change (2 ^ 47) with (2 * 2 ^ 46) in Hsmall. lia.
Qed.

(** An exact quotient below 128 is computed exactly, whatever the size
    of the operands. *)
Lemma int_truediv_exact (k b : Z) :
  0 < k < 128 -> 0 < b -> int_truediv (k * b) b = Value k.
Proof.
  intros Hk Hb.
  rewrite int_truediv_below by nia. f_equal.
  pose proof (ulp_exponent_small (k * b) b ltac:(nia) Hb ltac:(nia)) as He.
  set (P := 2 ^ (- ulp_exponent (k * b) b)).
  assert (0 < P) by (apply Z.pow_pos_nonneg; lia).
  replace (k * b * P) with (k * P * b) by lia.
  rewrite rne_div_multiple by lia. apply Z.div_mul. lia.
Qed.

Lemma floor_log2_ratio_lower (a b : Z) :
  0 < a -> 0 < b -> 0 <= floor_log2_ratio a b ->
  b * 2 ^ floor_log2_ratio a b <= a.
Proof.
  intros Ha Hb. unfold floor_log2_ratio.
  pose proof (Z.log2_spec a Ha) as [Hla Hua].
  pose proof (Z.log2_spec b Hb) as [Hlb Hub].
  pose proof (Z.log2_nonneg a). pose proof (Z.log2_nonneg b).
  set (la := Z.log2 a) in *. set (lb := Z.log2 b) in *.
  destruct (Z.leb_spec 0 (la - lb)) as [Hpos|Hneg].
  - destruct (Z.ltb_spec a (b * 2 ^ (la - lb))) as [Hlt|Hge]; [|done].
    intros HL.
    replace la with (Z.succ lb + (la - lb - 1)) in Hla by lia.
    rewrite Z.pow_add_r in Hla by lia.
    assert (0 < 2 ^ (la - lb - 1)) by (apply Z.pow_pos_nonneg; lia).
    nia.
  - destruct (Z.ltb _ b); lia.
Qed.

(** Quotients of operands below 2^1000 never overflow a float. *)
Lemma int_truediv_defined (a b : Z) :
  b <> 0 -> Z.abs a < 2 ^ 1000 -> exists z, int_truediv a b = Value z.
Proof.
  intros Hb Ha. unfold int_truediv.
  destruct (Z.eqb_spec b 0); [done|].
  destruct (Z.eqb_spec a 0); [by eexists|].
  set (A := Z.abs a) in *. set (B := Z.abs b).
  assert (0 < A) by (subst A; lia). assert (0 < B) by (subst B; lia).
  destruct (Z.leb_spec 0 (ulp_exponent A B)) as [He|He]; [|by eexists].
  simpl.
  destruct (Z.leb_spec (2 ^ 1024) (significand A B (ulp_exponent A B) * 2 ^ ulp_exponent A B))
    as [Hover|]; [exfalso|by eexists].
  unfold significand in Hover.
  destruct (Z.leb_spec 0 (ulp_exponent A B)); [|lia].
  unfold ulp_exponent in *.
  set (L := floor_log2_ratio A B) in *.
  assert (Z.max (L - 52) (-1074) = L - 52) as Hmax by lia.
  rewrite Hmax in *.
  pose proof (floor_log2_ratio_lower A B ltac:(done) ltac:(done) ltac:(fold L; lia)) as Hlow.
  fold L in Hlow.
  set (E := 2 ^ (L - 52)) in *.
  assert (0 < E) by (apply Z.pow_pos_nonneg; lia).
  assert (E <= 2 ^ L) by (apply Z.pow_le_mono_r; lia).
  assert (E <= A) by nia.
  assert (rne_div A (B * E) <= A / (B * E) + 1) as Hm
    by (destruct (rne_div_floor_or_next A (B * E) ltac:(nia)) as [->|[-> _]]; lia).
  assert (A / (B * E) * E <= A) as Hq.
  { pose proof (Z.mul_div_le A (B * E) ltac:(nia)).
    assert (0 <= A / (B * E)) by (apply Z.div_pos; nia). nia. }
  assert (2 ^ 1024 <= 2 * A) by nia.
  assert (2 * 2 ^ 1000 < 2 ^ 1024) by (vm_compute; done).
  lia.
Qed.

End Numerics.

(** ** Running computations *)

Section Runs.

Context {A B : Type}.

Lemma bind_raise (m : M A) (k : A -> M B) fs e fs1 t1 :
  m fs = (inl e, fs1, t1) -> bind m k fs = (inl e, fs1, t1).
Proof. intros H. unfold bind. by rewrite H. Qed.

Lemma bind_result_value (m : M A) (k : A -> M B) fs y :
  result_of (bind m k fs) = inr y ->
  exists x fs1, result_of (k x fs1) = inr y.
Proof.
  unfold bind. destruct (m fs) as [[[e|x] fs1] t1]; [done|].
  destruct (k x fs1) as [[r fs2] t2] eqn:E.
  intros H. exists x, fs1. by rewrite E.
Qed.

(** A [try] whose handler logs and re-raises: the exception the body
    raised comes out, after one more line of output when the handler
    catches it. *)
Lemma try_except_log (body : M A) (catches : exn -> bool) (context : string) fs :
  try_except body catches (log_and_reraise context) fs
  = match body fs with
    | (inl e, fs1, t1) =>
        (inl e, fs1, if catches e then (t1 ++ [logged context e])%list else t1)
    | (inr x, fs1, t1) => (inr x, fs1, t1)
    end.
Proof.
  unfold try_except. destruct (body fs) as [[[e|x] fs1] t1]; [|done].
  by destruct (catches e).
Qed.

End Runs.

(** ** Invariants of computations *)

Section Respects.

Variable R : fsys -> fsys -> Prop.
Variable P : event -> Prop.
Hypothesis R_refl : forall fs, R fs fs.
Hypothesis R_trans : forall fs1 fs2 fs3, R fs1 fs2 -> R fs2 fs3 -> R fs1 fs3.

Lemma respects_ret {A} (x : A) : respects R P (ret x).
Proof. intros fs. split; [apply R_refl | constructor]. Qed.

Lemma respects_raise {A} (e : exn) : respects R P (@raise A e).
Proof. intros fs. split; [apply R_refl | constructor]. Qed.

Lemma respects_emit (ev : event) : P ev -> respects R P (emit ev).
Proof. intros H fs. split; [apply R_refl | by repeat constructor]. Qed.

Lemma respects_print (s : string) : (forall text, P (Print text)) -> respects R P (print s).
Proof. intros H. by apply respects_emit. Qed.

Lemma respects_get_fs : respects R P get_fs.
Proof. intros fs. split; [apply R_refl | constructor]. Qed.

Lemma respects_modify_fs (f : fsys -> fsys) :
  (forall fs, R fs (f fs)) -> respects R P (modify_fs f).
Proof. intros H fs. split; [apply H | constructor]. Qed.

Lemma respects_bind {A B} (m : M A) (k : A -> M B) :
  respects R P m -> (forall x, respects R P (k x)) -> respects R P (bind m k).
Proof.
  intros Hm Hk fs. unfold bind.
  destruct (Hm fs) as [HR HP].
  destruct (m fs) as [[[e|x] fs1] t1]; [done|].
  destruct (Hk x fs1) as [HR' HP'].
  destruct (k x fs1) as [[r fs2] t2]. split.
  - by eapply R_trans.
  - apply Forall_app. done.
Qed.

Lemma respects_try_except {A} (body : M A) catches handler :
  respects R P body -> (forall e, respects R P (handler e)) ->
  respects R P (try_except body catches handler).
Proof.
  intros Hm Hk fs. unfold try_except.
  destruct (Hm fs) as [HR HP].
  destruct (body fs) as [[[e|x] fs1] t1]; [|done].
  destruct (catches e); [|done].
  destruct (Hk e fs1) as [HR' HP'].
  destruct (handler e fs1) as [[r fs2] t2]. split.
  - by eapply R_trans.
  - apply Forall_app. done.
Qed.

Lemma respects_log_and_reraise {A} context e :
  (forall text, P (Print text)) -> respects R P (@log_and_reraise A context e).
Proof.
  intros H. apply respects_bind; [by apply respects_print|].
  intros _. apply respects_raise.
Qed.

Lemma respects_int_truediv (a b : Z) : respects R P (int_truediv a b).
Proof.
  unfold int_truediv.
  destruct (PyNum.int_truediv a b); [apply respects_ret | apply respects_raise..].
Qed.

End Respects.

Lemma keeps_paths_refl fs : keeps_paths fs fs.
Proof. by intros path. Qed.

Lemma keeps_paths_trans fs1 fs2 fs3 :
  keeps_paths fs1 fs2 -> keeps_paths fs2 fs3 -> keeps_paths fs1 fs3.
Proof. intros H12 H23 path H. by apply H23, H12. Qed.

Lemma keeps_paths_insert path (data : bytes) (fs : fsys) :
  keeps_paths fs (<[path := data]> fs).
Proof.
  intros q Hq. destruct (decide (path = q)) as [->|Hne].
  - rewrite lookup_insert_eq. by eexists.
  - by rewrite lookup_insert_ne.
Qed.

Create HintDb respects_db.

#[local] Hint Resolve keeps_paths_refl keeps_paths_trans keeps_paths_insert : respects_db.

(** Invariant proofs follow the syntax of the computation: the rule for the
    head construct, a case analysis on a scrutinee, or a lemma already
    proved; side conditions go to the hint database. *)
Ltac respects_side :=
  solve [ eauto with respects_db | done | intros; simpl; done | intros; exact I ].

Ltac respects_step :=
  first
    [ solve [ eauto with respects_db ]
    | apply respects_ret | apply respects_raise | apply respects_get_fs
    | apply respects_int_truediv | apply respects_log_and_reraise
    | apply respects_print | apply respects_emit | apply respects_modify_fs
    | apply respects_bind | apply respects_try_except
    | match goal with
      | |- respects _ _ (match ?x with _ => _ end) => destruct x
      end ];
  try respects_side.

Ltac respects_tac := repeat (intros; respects_step).

(** ** The events and effects of each stage *)

Section Stages.

Variable w : World.

Lemma download_chunks_respects filename total_size show_progress cs downloaded :
  respects any_change (write_event filename)
    (download_chunks filename total_size show_progress cs downloaded).
Proof.
  revert downloaded. induction cs as [|chunk rest IH]; intros downloaded; simpl.
  - respects_tac.
  - unfold file_write, progress_done, progress_percent, print_noend.
    respects_tac.
Qed.

Lemma save_response_respects url filename show_progress r :
  respects any_change (write_event filename)
    (save_response w url filename show_progress r).
Proof.
  pose proof download_chunks_respects.
  unfold save_response, raise_for_status, open_wb, response_content, file_write.
  respects_tac.
Qed.

Lemma extractall_respects extract_to members :
  respects keeps_paths extract_event (extractall extract_to members).
Proof.
  induction members as [|m rest IH]; simpl; respects_tac.
Qed.

Lemma unzip_file_respects zip_path extract_to :
  respects keeps_paths extract_event (unzip_file w zip_path extract_to).
Proof.
  pose proof extractall_respects.
  unfold unzip_file, os_path_exists, unzip_file_body, ZipFile.
  respects_tac.
Qed.

Lemma cleanup_stage_respects cleanup path :
  respects any_change (cleanup_event path) (cleanup_stage w cleanup path).
Proof.
  unfold cleanup_stage, os_remove. respects_tac.
Qed.

(** *** Runs of the library calls *)

Lemma os_remove_run path fs :
  os_remove w path fs
  = match fs !! path with
    | None =>
        (inl (Exn FileNotFoundError
                ("[Errno 2] No such file or directory: '" +:+ path +:+ "'")),
         fs, [Remove path])
    | Some _ =>
        match remove_error w path with
        | Some e => (inl e, fs, [Remove path])
        | None => (inr tt, delete path fs, [Remove path])
        end
    end.
Proof.
  unfold os_remove, bind, emit, get_fs. simpl.
  destruct (fs !! path); [|done]. by destruct (remove_error w path).
Qed.

Lemma cleanup_stage_run cleanup path fs :
  cleanup_stage w cleanup path fs
  = if cleanup then
      match os_remove w path fs with
      | (inl e, fs1, t1) => (inl e, fs1, t1)
      | (inr _, fs1, t1) =>
          (inr tt, fs1, (t1 ++ [Print (("Cleaned up: " +:+ path) +:+ newline)])%list)
      end
    else (inr tt, fs, []).
Proof.
  unfold cleanup_stage. destruct cleanup; [|done].
  unfold bind at 1. by destruct (os_remove w path fs) as [[[e|[]] fs1] t1].
Qed.

Lemma extractall_run extract_to members fs :
  extractall extract_to members fs
  = (match first_damage members with
     | Some msg => inl (Exn BadZipFile msg)
     | None => inr tt
     end,
     write_members extract_to (reached members) fs,
     (fun m => ZipExtract (target_path extract_to (m_name m))) <$> reached members).
Proof.
  revert fs. induction members as [|m rest IH]; intros fs; [done|].
  simpl. unfold bind at 1 2, emit, modify_fs. simpl.
  destruct (m_damage m) as [msg|]; [done|].
  by rewrite IH.
Qed.

(** *** download_file *)

Lemma derive_filename_total url : is_Some (derive_filename url).
Proof.
  unfold derive_filename, PyStr.index_last.
  destruct (last (PyStr.split slash url)) eqn:E; [by eexists|].
  apply last_None in E. by apply split_nonempty in E.
Qed.

Lemma derive_filename_no_slash url :
  PyStr.contains slash url = false -> derive_filename url = Some url.
Proof.
  intros H. unfold derive_filename, PyStr.index_last.
  by rewrite split_no_sep.
Qed.

Lemma derive_filename_suffix pre suf :
  PyStr.contains slash suf = false ->
  derive_filename (pre +:+ String slash suf) = Some suf.
Proof.
  intros H. unfold derive_filename, PyStr.index_last.
  by rewrite last_split_app, split_no_sep.
Qed.

Lemma resolve_filename_run url filename fs :
  resolve_filename url filename fs = (inr (local_name url filename), fs, []).
Proof.
  unfold resolve_filename, local_name. destruct filename as [f|]; [done|].
  by destruct (derive_filename_total url) as [f ->].
Qed.

Lemma download_file_body_run url filename show_progress fs :
  download_file_body w url filename show_progress fs
  = match http_get w url with
    | inl e => (inl e, fs, [HttpGet url])
    | inr r =>
        let saved := save_response w url filename show_progress r fs in
        (result_of saved, disk_of saved, HttpGet url :: events_of saved)
    end.
Proof.
  unfold download_file_body, requests_get, bind at 1 2, emit. simpl.
  destruct (http_get w url) as [e|r]; [done|]. simpl.
  by destruct (save_response w url filename show_progress r fs) as [[x fs1] t1].
Qed.

Lemma download_file_run url filename show_progress fs :
  download_file w url filename show_progress fs
  = let f := local_name url filename in
    let start :=
      Print (("Downloading " +:+ f +:+ " from " +:+ url +:+ "...") +:+ newline) in
    match download_file_body w url f show_progress fs with
    | (inl e, fs1, t1) =>
        (inl e, fs1,
         start :: if is_RequestException e
                  then (t1 ++ [logged "Error downloading file: " e])%list else t1)
    | (inr x, fs1, t1) => (inr x, fs1, start :: t1)
    end.
Proof.
  unfold download_file. unfold bind at 1. rewrite resolve_filename_run.
  unfold bind at 1, print, emit. simpl.
  rewrite try_except_log.
  by destruct (download_file_body _ _ _ _ _) as [[[e|x] fs1] t1].
Qed.

End Stages.

(** ** The download loop and the failures of download_file *)

Section Download.

Variable w : World.

Lemma file_write_run path data (fs : fsys) old :
  fs !! path = Some old ->
  file_write path data fs
  = (inr tt, <[path := (old ++ data)%list]> fs, [FileWrite path data]).
Proof. intros H. unfold file_write, bind, emit, modify_fs. simpl. by rewrite H. Qed.

(** With a non-zero total and fewer than 2^990 bytes, the loop runs to the
    end of the chunks and the file holds all of them. *)
Lemma download_chunks_complete filename total_size show_progress cs downloaded
    (fs : fsys) old :
  total_size <> 0 -> 0 <= downloaded ->
  downloaded + Z.of_nat (length (concat cs)) < 2 ^ 990 ->
  fs !! filename = Some old ->
  exists t,
    download_chunks filename total_size show_progress cs downloaded fs
    = (inr (downloaded + Z.of_nat (length (concat cs))),
       <[filename := (old ++ concat cs)%list]> fs, t).
Proof.
  intros HT. revert downloaded fs old.
  induction cs as [|chunk rest IH]; intros downloaded fs old Hd Hsize Hold; simpl.
  - rewrite Z.add_0_r, app_nil_r, insert_id by done. by eexists.
  - simpl in Hsize. rewrite length_app in Hsize.
    set (d' := downloaded + Z.of_nat (length chunk)).
    assert (0 <= d' /\ d' + Z.of_nat (length (concat rest)) < 2 ^ 990) as [Hd' Hsize']
      by (subst d'; lia).
    assert (2 ^ 990 * 100 < 2 ^ 1000) as Hpow by (vm_compute; done).
    unfold bind at 1. rewrite (file_write_run _ _ _ old Hold).
    set (fs' := <[filename := (old ++ chunk)%list]> fs).
    assert (fs' !! filename = Some (old ++ chunk)%list) as Hold'
      by (subst fs'; apply lookup_insert_eq).
    destruct (IH d' fs' (old ++ chunk)%list Hd' Hsize' Hold') as [t Hrun].
    assert (<[filename := ((old ++ chunk) ++ concat rest)%list]> fs'
            = <[filename := (old ++ chunk ++ concat rest)%list]> fs) as Hins
      by (subst fs'; rewrite insert_insert_eq; by rewrite <- app_assoc).
    assert (d' + Z.of_nat (length (concat rest))
            = downloaded + Z.of_nat (length (chunk ++ concat rest))) as Hlen
      by (rewrite length_app; subst d'; lia).
    rewrite Hins, Hlen in Hrun. clear Hins Hlen.
    destruct show_progress.
    + unfold progress_done, progress_percent, int_truediv.
      destruct (int_truediv_defined (50 * d') total_size HT ltac:(lia)) as [z1 ->].
      destruct (int_truediv_defined (100 * d') total_size HT ltac:(lia)) as [z2 ->].
      unfold bind, ret, print_noend, emit. simpl. rewrite Hrun. by eexists.
    + unfold bind, ret. simpl. rewrite Hrun. by eexists.
Qed.

Lemma raise_for_status_run url r fs :
  if is_error_status (status_code r)
  then exists msg, raise_for_status url r fs = (inl (Exn HTTPError msg), fs, [])
  else raise_for_status url r fs = (inr tt, fs, []).
Proof.
  unfold raise_for_status, is_error_status.
  destruct (Z.leb_spec 400 (status_code r)), (Z.ltb_spec (status_code r) 500),
    (Z.leb_spec 500 (status_code r)), (Z.ltb_spec (status_code r) 600);
    simpl; try lia; try done; by eexists.
Qed.

(** An error status: nothing is opened, nothing is written. *)
Lemma save_response_error_status url filename show_progress r fs :
  is_error_status (status_code r) = true ->
  exists msg,
    save_response w url filename show_progress r fs = (inl (Exn HTTPError msg), fs, []).
Proof.
  intros Hs. pose proof (raise_for_status_run url r fs) as Hr. rewrite Hs in Hr.
  destruct Hr as [msg Hr]. exists msg.
  unfold save_response. by rewrite (bind_raise _ _ _ _ _ _ Hr).
Qed.

Lemma open_wb_run path fs :
  open_error w path = None ->
  open_wb w path fs = (inr tt, <[path := []]> fs, [FileOpenW path]).
Proof. intros H. unfold open_wb, bind, emit, modify_fs. simpl. by rewrite H. Qed.

(** The single-write path with a body that breaks: the file was opened
    and stays empty. *)
Lemma save_response_broken_content url filename show_progress r fs e :
  is_error_status (status_code r) = false ->
  open_error w filename = None ->
  single_write r show_progress = true ->
  broken (iter_content r 10240) = Some e ->
  save_response w url filename show_progress r fs
  = (inl e, <[filename := []]> fs, [FileOpenW filename]).
Proof.
  intros Hs Hopen Hsingle Hbroken.
  pose proof (raise_for_status_run url r fs) as Hr. rewrite Hs in Hr.
  unfold save_response. unfold bind at 1. rewrite Hr.
  unfold bind at 1. rewrite (open_wb_run _ _ Hopen).
  unfold single_write, total_size_of in Hsingle. rewrite Hsingle.
  unfold response_content. rewrite Hbroken.
  unfold bind, raise. done.
Qed.

(** The chunked path with a stream that breaks: the chunks received are
    in the file. *)
Lemma save_response_broken_stream url filename show_progress r fs e :
  is_error_status (status_code r) = false ->
  open_error w filename = None ->
  single_write r show_progress = false ->
  broken (iter_content r 8192) = Some e ->
  Z.of_nat (length (received (iter_content r 8192))) < 2 ^ 990 ->
  exists t,
    save_response w url filename show_progress r fs
    = (inl e, <[filename := received (iter_content r 8192)]> fs, t).
Proof.
  intros Hs Hopen Hsingle Hbroken Hsize.
  pose proof (raise_for_status_run url r fs) as Hr. rewrite Hs in Hr.
  unfold save_response. unfold bind at 1. rewrite Hr.
  unfold bind at 1. rewrite (open_wb_run _ _ Hopen).
  unfold single_write, total_size_of in Hsingle. rewrite Hsingle.
  apply orb_false_iff in Hsingle as [HT _]. apply Z.eqb_neq in HT.
  rewrite Hbroken.
  set (fs' := <[filename := []]> fs).
  destruct (download_chunks_complete filename (default 0 (content_length r))
              show_progress (chunks (iter_content r 8192)) 0 fs' []
              HT ltac:(lia) ltac:(unfold received in Hsize; lia)
              ltac:(subst fs'; apply lookup_insert_eq)) as [t Hrun].
  simpl in Hrun. subst fs'. rewrite insert_insert_eq in Hrun.
  unfold bind, raise. rewrite Hrun. by eexists.
Qed.

(** Whatever [save_response] returns is the file name it was given. *)
Lemma save_response_returns url filename show_progress r fs name :
  result_of (save_response w url filename show_progress r fs) = inr name ->
  name = filename.
Proof.
  unfold save_response. intros H.
  apply bind_result_value in H as (_ & fs1 & H).
  apply bind_result_value in H as (_ & fs2 & H).
  apply bind_result_value in H as (_ & fs3 & H).
  unfold ret, result_of in H. simpl in H. congruence.
Qed.

End Download.

(** ** Runs of the extractor and of the two orchestrators *)

Section Orchestration.

Variable w : World.

Lemma unzip_file_run zip_path extract_to fs :
  unzip_file w zip_path extract_to fs
  = match fs !! zip_path with
    | None =>
        (inl (Exn FileNotFoundError ("Zip file not found: " +:+ zip_path)),
         fs, [PathExists zip_path])
    | Some content =>
        (match zip_defect w content with
         | Some msg => inl (Exn BadZipFile msg)
         | None => inr extract_to
         end,
         write_members extract_to (zip_reached w content) fs,
         [PathExists zip_path;
          Print (("Extracting " +:+ zip_path +:+ "...") +:+ newline);
          ZipOpen zip_path]
         ++ ((fun m => ZipExtract (target_path extract_to (m_name m)))
               <$> zip_reached w content)
         ++ [match zip_defect w content with
             | Some msg => logged "Error: Invalid zip file: " (Exn BadZipFile msg)
             | None => Print (("Extraction complete to: " +:+ extract_to) +:+ newline)
             end])%list
    end.
Proof.
  unfold unzip_file, os_path_exists. unfold bind at 1 2 3, emit, get_fs, ret. simpl.
  destruct (fs !! zip_path) as [content|] eqn:Hfile.
  2: { rewrite bool_decide_eq_false_2 by (by intros [? ?]). done. }
  rewrite bool_decide_eq_true_2 by (by eexists). simpl.
  unfold bind at 1, print, emit. simpl. rewrite try_except_log.
  unfold unzip_file_body, ZipFile. unfold bind at 1 2 3, emit, get_fs. simpl.
  rewrite Hfile. unfold zip_defect, zip_reached.
  destruct (zip_parse w content) as [msg|members]; [done|].
  unfold ret at 1. simpl. unfold bind at 1. rewrite extractall_run.
  destruct (first_damage members) as [msg|]; [done|].
  unfold bind, print, emit, ret. done.
Qed.

Lemma extract_from_location_run zip_path extract_to cleanup fs :
  extract_from_location w zip_path extract_to cleanup fs
  = match unzip_file w zip_path extract_to fs with
    | (inl e, fs1, t1) =>
        (inl e, fs1, (t1 ++ [logged "Error in extract_from_location: " e])%list)
    | (inr extract_dir, fs1, t1) =>
        match cleanup_stage w cleanup zip_path fs1 with
        | (inl e, fs2, t2) =>
            (inl e, fs2,
             (t1 ++ t2 ++ [logged "Error in extract_from_location: " e])%list)
        | (inr _, fs2, t2) => (inr extract_dir, fs2, (t1 ++ t2)%list)
        end
    end.
Proof.
  unfold extract_from_location. rewrite try_except_log.
  unfold extract_from_location_body, bind, ret, is_Exception.
  destruct (unzip_file w zip_path extract_to fs) as [[[e|d] fs1] t1]; [done|].
  destruct (cleanup_stage w cleanup zip_path fs1) as [[[e|[]] fs2] t2].
  - by rewrite <- app_assoc.
  - by rewrite app_nil_r.
Qed.

Lemma download_and_extract_run url filename extract_to cleanup show_progress fs :
  download_and_extract w url filename extract_to cleanup show_progress fs
  = match download_file w url filename show_progress fs with
    | (inl e, fs1, t1) =>
        (inl e, fs1, (t1 ++ [logged "Error in download_and_extract: " e])%list)
    | (inr downloaded_file, fs1, t1) =>
        match unzip_file w downloaded_file extract_to fs1 with
        | (inl e, fs2, t2) =>
            (inl e, fs2,
             (t1 ++ t2 ++ [logged "Error in download_and_extract: " e])%list)
        | (inr extract_dir, fs2, t2) =>
            match cleanup_stage w cleanup downloaded_file fs2 with
            | (inl e, fs3, t3) =>
                (inl e, fs3,
                 (t1 ++ t2 ++ t3 ++ [logged "Error in download_and_extract: " e])%list)
            | (inr _, fs3, t3) =>
                (inr (downloaded_file, extract_dir), fs3, (t1 ++ t2 ++ t3)%list)
            end
        end
    end.
Proof.
  unfold download_and_extract. rewrite try_except_log.
  unfold download_and_extract_body, bind, ret, is_Exception.
  destruct (download_file w url filename show_progress fs) as [[[e|f] fs1] t1]; [done|].
  destruct (unzip_file w f extract_to fs1) as [[[e|d] fs2] t2].
  { by rewrite <- app_assoc. }
  destruct (cleanup_stage w cleanup f fs2) as [[[e|[]] fs3] t3].
  - by rewrite <- !app_assoc.
  - by rewrite app_nil_r.
Qed.

(** *** What the events of a stage exclude *)

Lemma write_events_quiet filename t :
  Forall (write_event filename) t ->
  requested t = [] /\ removed t = [] /\ Forall (in_stage Download) t.
Proof.
  induction 1 as [|ev t Hev _ (IH1 & IH2 & IH3)]; [done|].
  unfold requested, removed in *. simpl.
  destruct ev; simpl in *; try done; rewrite ?IH1, ?IH2;
    (split; [done|split; [done|]]); constructor; try done;
    unfold in_stage; simpl; auto.
Qed.

Lemma extract_events_quiet t :
  Forall extract_event t ->
  requested t = [] /\ removed t = [] /\ Forall (in_stage Extract) t.
Proof.
  induction 1 as [|ev t Hev _ (IH1 & IH2 & IH3)]; [done|].
  unfold requested, removed in *. simpl.
  destruct ev; simpl in *; try done; rewrite ?IH1, ?IH2;
    (split; [done|split; [done|]]); constructor; try done;
    unfold in_stage; simpl; auto.
Qed.

Lemma cleanup_events_quiet target t :
  Forall (cleanup_event target) t ->
  requested t = [] /\ Forall (in_stage Cleanup) t.
Proof.
  induction 1 as [|ev t Hev _ (IH1 & IH2)]; [done|].
  unfold requested in *. simpl.
  destruct ev; simpl in *; try done; rewrite ?IH1;
    (split; [done|]); constructor; try done;
    unfold in_stage; simpl; auto.
Qed.

Lemma requested_app t1 t2 : requested (t1 ++ t2) = (requested t1 ++ requested t2)%list.
Proof. apply omap_app. Qed.

Lemma removed_app t1 t2 : removed (t1 ++ t2) = (removed t1 ++ removed t2)%list.
Proof. apply omap_app. Qed.

(** The events of [download_file]: its first line of output, one request,
    then writes to the local file and output only. *)
Lemma download_file_events url filename show_progress fs :
  exists start rest,
    events_of (download_file w url filename show_progress fs)
    = Print start :: HttpGet url :: rest
    /\ Forall (write_event (local_name url filename)) rest.
Proof.
  rewrite download_file_run. cbv zeta. rewrite download_file_body_run.
  set (f := local_name url filename).
  destruct (http_get w url) as [e|r].
  { destruct (is_RequestException e); simpl;
      eexists _, _; (split; [reflexivity|]); repeat constructor. }
  cbv zeta.
  destruct (save_response_respects w url f show_progress r fs) as [_ Hev].
  destruct (save_response w url f show_progress r fs) as [[[e|x] fs1] t1];
    unfold events_of, result_of, disk_of in *; simpl in *.
  - destruct (is_RequestException e); simpl;
      eexists _, _; (split; [reflexivity|]); [|done].
    apply Forall_app. split; [done|]. repeat constructor.
  - eexists _, _. split; [reflexivity|done].
Qed.

End Orchestration.

(** ** Lengths of strings *)

Lemma string_length_append (s1 s2 : string) :
  String.length (s1 +:+ s2) = (String.length s1 + String.length s2)%nat.
Proof. induction s1 as [|c s1 IH]; simpl; [done|]. by rewrite IH. Qed.

Lemma repeat_length (s : string) (n : Z) :
  String.length (PyStr.repeat s n) = (Z.to_nat n * String.length s)%nat.
Proof.
  unfold PyStr.repeat. induction (Z.to_nat n) as [|k IH]; simpl; [done|].
  by rewrite string_length_append, IH.
Qed.

Lemma progress_bar_shape (done : Z) :
  0 <= done <= 50 ->
  PyStr.len (PyStr.repeat "=" done) = done
  /\ PyStr.len (progress_bar done) = 50.
Proof.
  intros H. unfold progress_bar, PyStr.len.
  rewrite string_length_append, !repeat_length. simpl. lia.
Qed.

(** ** Filename derivation *)

(** C6.  When [download_file] is called with no filename and a URL that has
    a ['/'], the local file name it uses (the only file it opens and writes)
    and returns is exactly the part of the URL after its last ['/']. *)
Theorem download_file_derived_filename (w : World) (pre suf : string)
    (show_progress : bool) (fs : fsys) :
  PyStr.contains slash suf = false ->
  let url := pre +:+ String slash suf in
  let run := download_file w url None show_progress fs in
  derive_filename url = Some suf
  /\ run = download_file w url (Some suf) show_progress fs
  /\ (forall name, result_of run = inr name -> name = suf)
  /\ (forall path, FileOpenW path ∈ events_of run -> path = suf)
  /\ (forall path data, FileWrite path data ∈ events_of run -> path = suf).
Proof.
  intros Hsuf url run.
  pose proof (derive_filename_suffix pre suf Hsuf) as Hderive. fold url in Hderive.
  assert (local_name url None = suf) as Hname
    by (unfold local_name; by rewrite Hderive).
  split; [done|]. split.
  { subst run. unfold download_file, resolve_filename. by rewrite Hderive. }
  split.
  { intros name. subst run. rewrite download_file_run, Hname. cbv zeta.
    rewrite download_file_body_run.
    destruct (http_get w url) as [e|r]; [done|]. cbv zeta.
    pose proof (save_response_returns w url suf show_progress r fs name) as Hret.
    destruct (save_response w url suf show_progress r fs) as [[[e|x] fs1] t1]; [done|].
    exact Hret. }
  destruct (download_file_events w url None show_progress fs) as (start & rest & Hev & Hrest).
  fold run in Hev. rewrite Hname in Hrest. rewrite Hev.
  rewrite Forall_forall in Hrest.
  split.
  - intros path Hin. apply elem_of_cons in Hin as [|Hin]; [done|].
    apply elem_of_cons in Hin as [|Hin]; [done|].
    exact (Hrest _ Hin).
  - intros path data Hin. apply elem_of_cons in Hin as [|Hin]; [done|].
    apply elem_of_cons in Hin as [|Hin]; [done|].
    exact (Hrest _ Hin).
Qed.

Lemma download_file_derived_filename_witness :
  PyStr.contains slash "data.zip" = false
  /\ derive_filename "http://h/data.zip" = Some "data.zip"
  /\ result_of (download_file Demo.world "http://h/data.zip" None true ∅)
     = result_of (download_file Demo.world "http://h/data.zip" (Some "data.zip") true ∅).
Proof.
  split; [reflexivity|].
  destruct (download_file_derived_filename Demo.world "http://h" "data.zip" true ∅ eq_refl)
    as (Hderive & Hrun & _).
  split; [exact Hderive|]. exact (f_equal result_of Hrun).
Defined.



(** ** Progress rendering *)

(** C7 as stated fails: with a total of 2^47 + 71 bytes the float quotient
    rounds up to the next integer and the percent shown is 99 where the
    floor is 98. *)
Lemma progress_percent_rounds_up :
  let total_size := 140737488355399 in
  let downloaded := 139330113471845 in
  0 < total_size /\ 0 <= downloaded <= total_size
  /\ progress_percent downloaded total_size ∅ = (inr 99, ∅, [])
  /\ 100 * downloaded / total_size = 98.
Proof. vm_compute. repeat split; discriminate. Qed.

(** C7, amended.  For a total size [0 < T < 2^47] and [0 <= d <= T]
    downloaded bytes, the loop computes [done = floor(50*d/T)] and
    [percent = floor(100*d/T)], and draws a bar of 50 characters of which
    the first [done] are fill; at [d = T], for every [T > 0], [done] is 50
    and [percent] is 100. *)
Theorem progress_exact (T d : Z) (fs : fsys) :
  0 < T -> 0 <= d <= T -> T < 2 ^ 47 \/ d = T ->
  progress_done d T fs = (inr (50 * d / T), fs, [])
  /\ progress_percent d T fs = (inr (100 * d / T), fs, [])
  /\ PyStr.len (PyStr.repeat "=" (50 * d / T)) = 50 * d / T
  /\ PyStr.len (progress_bar (50 * d / T)) = 50
  /\ (d = T -> 50 * d / T = 50 /\ 100 * d / T = 100)
  /\ (forall filename chunk old,
        fs !! filename = Some old ->
        download_chunks filename T true [chunk] (d - Z.of_nat (length chunk)) fs
        = (inr d, <[filename := (old ++ chunk)%list]> fs,
           [FileWrite filename chunk;
            Print (progress_line (progress_bar (50 * d / T)) (100 * d / T) d T)])).
Proof.
  intros HT Hd Hcase.
  assert (PyNum.int_truediv (50 * d) T = PyNum.Value (50 * d / T)
          /\ PyNum.int_truediv (100 * d) T = PyNum.Value (100 * d / T)) as [H50 H100].
  { destruct Hcase as [Hsmall | ->].
    - split; apply int_truediv_floor; lia.
    - rewrite !Z.div_mul by lia. split; apply int_truediv_exact; lia. }
  assert (progress_done d T fs = (inr (50 * d / T), fs, [])) as Hdone
    by (unfold progress_done, int_truediv; by rewrite H50).
  assert (progress_percent d T fs = (inr (100 * d / T), fs, [])) as Hpercent
    by (unfold progress_percent, int_truediv; by rewrite H100).
  assert (0 <= 50 * d / T <= 50) as Hrange.
  { split; [apply Z.div_pos; lia|].
    apply Z.div_le_upper_bound; lia. }
  destruct (progress_bar_shape _ Hrange) as [Hfill Hbar].
  do 4 (split; [done|]). split.
  - intros ->. by rewrite !Z.div_mul by lia.
  - intros filename chunk old Hold. simpl.
    replace (d - Z.of_nat (length chunk) + Z.of_nat (length chunk)) with d by lia.
    unfold bind at 1. rewrite (file_write_run _ _ _ old Hold).
    unfold progress_done, progress_percent, int_truediv. rewrite H50, H100.
    done.
Qed.

Lemma progress_exact_witness :
  0 < 4 /\ 0 <= 2 <= 4 /\ (4 < 2 ^ 47 \/ 2 = 4)
  /\ progress_done 2 4 ∅ = (inr 25, ∅, [])
  /\ progress_percent 2 4 ∅ = (inr 50, ∅, []).
Proof.
  assert (0 < 4) as H1 by lia.
  assert (0 <= 2 <= 4) as H2 by lia.
  assert (4 < 2 ^ 47 \/ 2 = 4) as H3 by (left; reflexivity).
  destruct (progress_exact 4 2 ∅ H1 H2 H3) as (Hdone & Hpercent & _).
  repeat split; try done.
Defined.

(** ** The extractor *)

(** C4.  On a source path that does not exist [unzip_file] raises
    [FileNotFoundError], and it does so after the existence check alone:
    the archive is never opened, nothing is written and nothing printed. *)
Theorem unzip_file_missing (w : World) (zip_path extract_to : string) (fs : fsys) :
  fs !! zip_path = None ->
  unzip_file w zip_path extract_to fs
  = (inl (Exn FileNotFoundError ("Zip file not found: " +:+ zip_path)),
     fs, [PathExists zip_path])
  /\ (forall path, ZipOpen path ∉ events_of (unzip_file w zip_path extract_to fs)).
Proof.
  intros Hmissing. rewrite unzip_file_run, Hmissing. split; [done|].
  intros path Hin. apply list_elem_of_singleton in Hin. done.
Qed.

Lemma unzip_file_missing_witness :
  Demo.disk !! "gone.zip" = None
  /\ result_of (unzip_file Demo.world "gone.zip" "." Demo.disk)
     = inl (Exn FileNotFoundError "Zip file not found: gone.zip").
Proof.
  assert (Demo.disk !! "gone.zip" = None) as H by reflexivity.
  split; [exact H|].
  destruct (unzip_file_missing Demo.world "gone.zip" "." Demo.disk H) as [-> _].
  reflexivity.
Defined.



(** ** The pipeline *)

(** C1.  [download_and_extract] runs the download, then the extraction of
    the file the download returned, then the optional cleanup of that file,
    each from the file system the previous stage left and only when the
    previous stage returned; the first exception stops the run and comes out
    unchanged, after one line of output; the URL is requested once. *)
Theorem download_and_extract_stages (w : World) (url : string) (filename : option string)
    (extract_to : string) (cleanup show_progress : bool) (fs : fsys) :
  let run := download_and_extract w url filename extract_to cleanup show_progress fs in
  let dl := download_file w url filename show_progress fs in
  requested (events_of run) = [url]
  /\ Forall (in_stage Download) (events_of dl)
  /\ match result_of dl with
     | inl e =>
         run = (inl e, disk_of dl,
                (events_of dl ++ [logged "Error in download_and_extract: " e])%list)
     | inr f =>
         let ex := unzip_file w f extract_to (disk_of dl) in
         f = local_name url filename
         /\ Forall (in_stage Extract) (events_of ex)
         /\ match result_of ex with
            | inl e =>
                run = (inl e, disk_of ex,
                       (events_of dl ++ events_of ex
                          ++ [logged "Error in download_and_extract: " e])%list)
            | inr d =>
                let cl := cleanup_stage w cleanup f (disk_of ex) in
                Forall (in_stage Cleanup) (events_of cl)
                /\ (if cleanup then removed (events_of cl) = [f]
                    else cl = (inr tt, disk_of ex, []))
                /\ match result_of cl with
                   | inl e =>
                       run = (inl e, disk_of cl,
                              (events_of dl ++ events_of ex ++ events_of cl
                                 ++ [logged "Error in download_and_extract: " e])%list)
                   | inr _ =>
                       run = (inr (f, d), disk_of cl,
                              (events_of dl ++ events_of ex ++ events_of cl)%list)
                   end
            end
     end.
Proof.
  cbv zeta. rewrite download_and_extract_run.
  destruct (download_file_events w url filename show_progress fs)
    as (start & rest & Hev & Hrest).
  destruct (write_events_quiet _ _ Hrest) as (Hreq1 & _ & Hst1).
  assert (requested (events_of (download_file w url filename show_progress fs)) = [url])
    as Hreq by (rewrite Hev; change (url :: requested rest = [url]); by rewrite Hreq1).
  assert (Forall (in_stage Download)
            (events_of (download_file w url filename show_progress fs))) as Hstage.
  { rewrite Hev. constructor; [by right|]. constructor; [by left|done]. }
  assert (forall f, result_of (download_file w url filename show_progress fs) = inr f ->
                    f = local_name url filename) as Hname.
  { intros f. rewrite download_file_run. cbv zeta. rewrite download_file_body_run.
    destruct (http_get w url) as [e|r]; [done|]. cbv zeta.
    pose proof (save_response_returns w url (local_name url filename) show_progress r fs f).
    by destruct (save_response w url _ show_progress r fs) as [[[e|x] fs1] t1]. }
  clear Hev Hrest Hreq1 Hst1.
  destruct (download_file w url filename show_progress fs) as [[[e|f] fs1] t1];
    unfold result_of, disk_of, events_of in *; simpl in *.
  { split; [|done]. by rewrite requested_app, Hreq. }
  destruct (unzip_file_respects w f extract_to fs1) as [_ Hev2].
  destruct (extract_events_quiet _ Hev2) as (Hreq2 & _ & Hst2).
  destruct (unzip_file w f extract_to fs1) as [[[e|d] fs2] t2];
    unfold result_of, disk_of, events_of in *; simpl in *.
  { split; [|by auto]. by rewrite !requested_app, Hreq, Hreq2. }
  destruct (cleanup_stage_respects w cleanup f fs2) as [_ Hev3].
  destruct (cleanup_events_quiet _ _ Hev3) as (Hreq3 & Hst3).
  assert (if cleanup then removed (events_of (cleanup_stage w cleanup f fs2)) = [f]
          else cleanup_stage w cleanup f fs2 = (inr tt, fs2, [])) as Hcl.
  { rewrite cleanup_stage_run. destruct cleanup; [|done].
    rewrite os_remove_run.
    destruct (fs2 !! f); [destruct (remove_error w f)|]; done. }
  destruct (cleanup_stage w cleanup f fs2) as [[[e|[]] fs3] t3];
    unfold result_of, disk_of, events_of in *; simpl in *.
  - split; [|by auto 10]. by rewrite !requested_app, Hreq, Hreq2, Hreq3.
  - split; [|by auto 10]. by rewrite !requested_app, Hreq, Hreq2, Hreq3.
Qed.

(** ** Cleanup *)

Section Cleanup.

Variable w : World.

(** The cleanup stage when it is requested, after the events [before] of
    the stages that came first: [os.remove] is called once, on [path]; its
    failure is the failure of the run; when the run returns, [path] is
    gone. *)
Lemma cleanup_requested {A} (path : string) (fs1 : fsys) (before : list event)
    (context : string) (value : A) (run : (exn + A) * fsys * list event) :
  removed before = [] ->
  run = match cleanup_stage w true path fs1 with
        | (inl e, fs2, t2) => (inl e, fs2, (before ++ t2 ++ [logged context e])%list)
        | (inr _, fs2, t2) => (inr value, fs2, (before ++ t2)%list)
        end ->
  removed (events_of run) = [path]
  /\ (exists tail, events_of run = (before ++ Remove path :: tail)%list)
  /\ match result_of (os_remove w path fs1) with
     | inl e => result_of run = inl e
     | inr _ => result_of run = inr value /\ disk_of run !! path = None
     end.
Proof.
  intros Hbefore ->. rewrite cleanup_stage_run, os_remove_run.
  destruct (fs1 !! path) as [content|]; [destruct (remove_error w path) as [e|]|];
    unfold events_of, result_of, disk_of; simpl;
    rewrite ?removed_app, ?Hbefore;
    (split; [done|]); (split; [by eexists|]); try done.
  split; [done|]. apply lookup_delete_eq.
Qed.

Lemma unzip_file_found zip_path extract_to fs d :
  result_of (unzip_file w zip_path extract_to fs) = inr d ->
  is_Some (fs !! zip_path)
  /\ is_Some (disk_of (unzip_file w zip_path extract_to fs) !! zip_path).
Proof.
  intros Hres.
  assert (is_Some (fs !! zip_path)) as Hfound.
  { rewrite unzip_file_run in Hres. by destruct (fs !! zip_path). }
  split; [done|].
  by apply (unzip_file_respects w zip_path extract_to fs).
Qed.

End Cleanup.

(** C2.  With cleanup requested, [extract_from_location] and
    [download_and_extract] call [os.remove] on the archive only once the
    extraction has returned: when the extraction raises, nothing is removed
    and the exception comes out; when the removal raises, that exception
    comes out; and when the run returns, the archive is absent from the file
    system. *)
Theorem cleanup_after_extraction (w : World) (zip_path extract_to : string) (fs : fsys)
    (url : string) (filename : option string) (show_progress : bool) :
  let located := extract_from_location w zip_path extract_to true fs in
  let ex := unzip_file w zip_path extract_to fs in
  let fetched := download_and_extract w url filename extract_to true show_progress fs in
  let dl := download_file w url filename show_progress fs in
  match result_of ex with
  | inl e => result_of located = inl e /\ removed (events_of located) = []
  | inr d =>
      removed (events_of located) = [zip_path]
      /\ (exists tail, events_of located = (events_of ex ++ Remove zip_path :: tail)%list)
      /\ match result_of (os_remove w zip_path (disk_of ex)) with
         | inl e => result_of located = inl e
         | inr _ => result_of located = inr d /\ disk_of located !! zip_path = None
         end
  end
  /\ match result_of dl with
     | inl e => result_of fetched = inl e /\ removed (events_of fetched) = []
     | inr f =>
         let ex' := unzip_file w f extract_to (disk_of dl) in
         match result_of ex' with
         | inl e => result_of fetched = inl e /\ removed (events_of fetched) = []
         | inr d =>
             removed (events_of fetched) = [f]
             /\ (exists tail,
                   events_of fetched
                   = ((events_of dl ++ events_of ex') ++ Remove f :: tail)%list)
             /\ match result_of (os_remove w f (disk_of ex')) with
                | inl e => result_of fetched = inl e
                | inr _ =>
                    result_of fetched = inr (f, d) /\ disk_of fetched !! f = None
                end
         end
     end.
Proof.
  cbv zeta. split.
  - pose proof (extract_from_location_run w zip_path extract_to true fs) as Hrun.
    destruct (unzip_file_respects w zip_path extract_to fs) as [_ Hev].
    destruct (extract_events_quiet _ Hev) as (_ & Hrm & _).
    destruct (unzip_file w zip_path extract_to fs) as [[[e|d] fs1] t1];
      unfold result_of, disk_of, events_of in *; simpl in *.
    + rewrite Hrun. simpl. by rewrite removed_app, Hrm.
    + by apply (cleanup_requested w zip_path fs1 t1
                  "Error in extract_from_location: " d).
  - pose proof (download_and_extract_run w url filename extract_to true show_progress fs)
      as Hrun.
    destruct (download_file_events w url filename show_progress fs)
      as (start & rest & Hev1 & Hrest).
    destruct (write_events_quiet _ _ Hrest) as (_ & Hrm0 & _).
    assert (removed (events_of (download_file w url filename show_progress fs)) = [])
      as Hrm1 by (rewrite Hev1; exact Hrm0).
    clear Hev1 Hrest Hrm0.
    destruct (download_file w url filename show_progress fs) as [[[e|f] fs1] t1];
      unfold result_of, disk_of, events_of in *; simpl in *.
    { rewrite Hrun. simpl. by rewrite removed_app, Hrm1. }
    destruct (unzip_file_respects w f extract_to fs1) as [_ Hev2].
    destruct (extract_events_quiet _ Hev2) as (_ & Hrm2 & _).
    destruct (unzip_file w f extract_to fs1) as [[[e|d] fs2] t2];
      unfold result_of, disk_of, events_of in *; simpl in *.
    { rewrite Hrun. simpl. by rewrite !removed_app, Hrm1, Hrm2. }
    apply (cleanup_requested w f fs2 (t1 ++ t2) "Error in download_and_extract: " (f, d)).
    + by rewrite removed_app, Hrm1, Hrm2.
    + rewrite Hrun. unfold cleanup_stage.
      destruct (bind _ _ fs2) as [[[e|[]] fs3] t3]; by rewrite <- !app_assoc.
Qed.

(** C9.  With [cleanup=False], [extract_from_location] and
    [download_and_extract] never call [os.remove], and when they return the
    archive is still on disk. *)
Theorem no_cleanup_keeps_archive (w : World) (zip_path extract_to : string) (fs : fsys)
    (url : string) (filename : option string) (show_progress : bool) :
  let located := extract_from_location w zip_path extract_to false fs in
  let fetched := download_and_extract w url filename extract_to false show_progress fs in
  removed (events_of located) = []
  /\ (forall d, result_of located = inr d -> is_Some (disk_of located !! zip_path))
  /\ removed (events_of fetched) = []
  /\ (forall f d, result_of fetched = inr (f, d) -> is_Some (disk_of fetched !! f)).
Proof.
  cbv zeta.
  rewrite extract_from_location_run, download_and_extract_run.
  assert (removed [] = []) as Hnil by done.
  split; [|split; [|split]].
  - destruct (unzip_file_respects w zip_path extract_to fs) as [_ Hev].
    destruct (extract_events_quiet _ Hev) as (_ & Hrm & _).
    destruct (unzip_file w zip_path extract_to fs) as [[[e|d] fs1] t1];
      unfold events_of in *; simpl in *; by rewrite removed_app, Hrm.
  - intros d.
    pose proof (unzip_file_found w zip_path extract_to fs) as Hfound.
    destruct (unzip_file w zip_path extract_to fs) as [[[e|d'] fs1] t1];
      unfold result_of, disk_of in *; simpl in *; [done|].
    intros _. by apply (Hfound d').
  - destruct (download_file_events w url filename show_progress fs)
      as (start & rest & Hev1 & Hrest).
    destruct (write_events_quiet _ _ Hrest) as (_ & Hrm0 & _).
    assert (removed (events_of (download_file w url filename show_progress fs)) = [])
      as Hrm1 by (rewrite Hev1; exact Hrm0).
    clear Hev1 Hrest Hrm0.
    destruct (download_file w url filename show_progress fs) as [[[e|f] fs1] t1];
      unfold events_of in *; simpl in *.
    { by rewrite removed_app, Hrm1. }
    destruct (unzip_file_respects w f extract_to fs1) as [_ Hev2].
    destruct (extract_events_quiet _ Hev2) as (_ & Hrm2 & _).
    destruct (unzip_file w f extract_to fs1) as [[[e|d] fs2] t2];
      unfold events_of in *; simpl in *; by rewrite !removed_app, Hrm1, Hrm2.
  - intros f d.
    destruct (download_file w url filename show_progress fs) as [[[e|f'] fs1] t1];
      [done|].
    pose proof (unzip_file_found w f' extract_to fs1) as Hfound.
    destruct (unzip_file w f' extract_to fs1) as [[[e|d'] fs2] t2];
      unfold result_of, disk_of in *; simpl in *; [done|].
    intros [= -> ->]. by apply (Hfound d).
Qed.

Lemma no_cleanup_keeps_archive_witness :
  result_of (extract_from_location Demo.world "data.zip" "out" false Demo.disk) = inr "out"
  /\ is_Some (disk_of (extract_from_location Demo.world "data.zip" "out" false Demo.disk)
                !! "data.zip").
Proof.
  assert (result_of (extract_from_location Demo.world "data.zip" "out" false Demo.disk)
          = inr "out") as H by reflexivity.
  split; [exact H|].
  destruct (no_cleanup_keeps_archive Demo.world "data.zip" "out" Demo.disk
              "http://h/data.zip" None true) as (_ & Hkept & _).
  exact (Hkept "out" H).
Defined.

(** ** Failures *)

(** C3 as stated fails: a response whose status is not 2xx and not an error
    status either (here 300) does not abort the download; the body is
    written and the file name returned. *)
Lemma download_file_continues_on_300 :
  exists r,
    http_get Demo.world "http://h/choices.zip" = inr r
    /\ status_code r = 300
    /\ ~ (200 <= status_code r < 300)
    /\ result_of (download_file Demo.world "http://h/choices.zip" None true ∅)
       = inr "choices.zip"
    /\ disk_of (download_file Demo.world "http://h/choices.zip" None true ∅)
       = {[ "choices.zip" := Demo.text_bytes ]}.
Proof.
  eexists. split; [reflexivity|]. split; [reflexivity|].
  split; [simpl; lia|]. split; [reflexivity|].
  vm_compute. reflexivity.
Qed.

(** C3, amended.  When [requests.get] raises, when the response has a 4xx
    or 5xx status, or when the body stream breaks, [download_file] raises
    that same exception.  In the first two cases the file system is as it
    was (for a 404, no output file is written); in the third the file holds
    what was written before the stream broke: nothing on the single-write
    path, the chunks received on the chunked path. *)
Theorem download_file_aborts (w : World) (url : string) (filename : option string)
    (show_progress : bool) (fs : fsys) :
  let f := local_name url filename in
  let run := download_file w url filename show_progress fs in
  match http_get w url with
  | inl e => result_of run = inl e /\ disk_of run = fs
  | inr r =>
      if is_error_status (status_code r) then
        (exists msg, result_of run = inl (Exn HTTPError msg))
        /\ disk_of run = fs
        /\ (forall path, FileOpenW path ∉ events_of run)
      else
        open_error w f = None ->
        if single_write r show_progress then
          forall e, broken (iter_content r 10240) = Some e ->
            result_of run = inl e /\ disk_of run = <[f := []]> fs
        else
          forall e, broken (iter_content r 8192) = Some e ->
            Z.of_nat (length (received (iter_content r 8192))) < 2 ^ 990 ->
            result_of run = inl e
            /\ disk_of run = <[f := received (iter_content r 8192)]> fs
  end
  /\ (forall r, http_get w url = inr r -> status_code r = 404 ->
        (exists e, result_of run = inl e) /\ disk_of run = fs).
Proof.
  cbv zeta. rewrite download_file_run. cbv zeta. rewrite download_file_body_run.
  set (f := local_name url filename).
  assert (forall r, is_error_status (status_code r) = true ->
            let saved := save_response w url f show_progress r fs in
            exists msg, saved = (inl (Exn HTTPError msg), fs, [])) as Herr
    by (intros r Hs; apply save_response_error_status; done).
  split.
  - destruct (http_get w url) as [e|r]; [done|]. cbv zeta.
    destruct (is_error_status (status_code r)) eqn:Hs.
    + destruct (Herr r Hs) as [msg ->].
      split; [by exists msg|]. split; [done|].
      intros path Hin. unfold events_of in Hin. simpl in Hin.
      repeat (apply elem_of_cons in Hin as [|Hin]; [done|]).
      by apply elem_of_nil in Hin.
    + intros Hopen. destruct (single_write r show_progress) eqn:Hsingle.
      * intros e Hbroken.
        by rewrite (save_response_broken_content w url f show_progress r fs e).
      * intros e Hbroken Hsize.
        destruct (save_response_broken_stream w url f show_progress r fs e)
          as [t ->]; done.
  - intros r -> H404.
    assert (is_error_status (status_code r) = true) as Hs
      by (unfold is_error_status; rewrite H404; done).
    cbv zeta. destruct (Herr r Hs) as [msg ->].
    split; [by eexists|done].
Qed.

Lemma download_file_aborts_witness :
  open_error Demo.world "broken.zip" = None
  /\ result_of (download_file Demo.world "http://h/broken.zip" None true ∅)
     = inl (Exn ChunkedEncodingError "Connection broken")
  /\ disk_of (download_file Demo.world "http://h/broken.zip" None true ∅)
     = <[ "broken.zip" := [Byte.x50; Byte.x4b] ]> ∅.
Proof.
  assert (open_error Demo.world "broken.zip" = None) as Hopen by reflexivity.
  split; [exact Hopen|].
  destruct (download_file_aborts Demo.world "http://h/broken.zip" None true ∅)
    as [Hrun _].
  apply (Hrun Hopen (Exn ChunkedEncodingError "Connection broken") eq_refl).
  vm_compute. reflexivity.
Defined.

(** Past its existence check, [unzip_file] is its body under the handler. *)
Lemma unzip_file_guarded (w : World) (zip_path extract_to : string) (fs : fsys) content :
  fs !! zip_path = Some content ->
  unzip_file w zip_path extract_to fs
  = match unzip_file_body w zip_path extract_to fs with
    | (inl e, fs1, t1) =>
        (inl e, fs1,
         PathExists zip_path
         :: Print (("Extracting " +:+ zip_path +:+ "...") +:+ newline)
         :: (t1 ++ if is_BadZipFile e
                   then [logged "Error: Invalid zip file: " e] else [])%list)
    | (inr dir, fs1, t1) =>
        (inr dir, fs1,
         PathExists zip_path
         :: Print (("Extracting " +:+ zip_path +:+ "...") +:+ newline) :: t1)
    end.
Proof.
  intros Hfile.
  unfold unzip_file, os_path_exists. unfold bind at 1 2 3, emit, get_fs, ret. simpl.
  rewrite Hfile, bool_decide_eq_true_2 by (by eexists). simpl.
  unfold bind at 1, print, emit. simpl. rewrite try_except_log.
  destruct (unzip_file_body w zip_path extract_to fs) as [[[e|dir] fs1] t1]; [|done].
  destruct (is_BadZipFile e); [done|by rewrite app_nil_r].
Qed.

(** C8 as stated fails: [unzip_file] on a path that does not exist raises
    without printing anything. *)
Lemma unzip_file_failure_not_logged :
  result_of (unzip_file Demo.world "gone.zip" "." Demo.disk)
  = inl (Exn FileNotFoundError "Zip file not found: gone.zip")
  /\ stdout (events_of (unzip_file Demo.world "gone.zip" "." Demo.disk)) = [].
Proof. split; reflexivity. Qed.

(** C8, amended.  No failure is swallowed or retried: each of the four
    functions runs its body once and raises the very exception its body
    raised, from the file system the body left.  [extract_from_location] and
    [download_and_extract] print one line for every exception before
    re-raising; [download_file] prints one for a [RequestException],
    [unzip_file] for a [BadZipFile], and [unzip_file] raises its own
    [FileNotFoundError] with no output. *)
Theorem failures_reraised (w : World) (url : string) (filename : option string)
    (show_progress : bool) (zip_path extract_to : string) (cleanup : bool) (fs : fsys) :
  match download_file_body w url (local_name url filename) show_progress fs with
  | (inl e, fs1, t1) =>
      exists start,
        download_file w url filename show_progress fs
        = (inl e, fs1,
           Print start
           :: (t1 ++ if is_RequestException e
                     then [logged "Error downloading file: " e] else [])%list)
  | (inr name, fs1, t1) =>
      exists start,
        download_file w url filename show_progress fs = (inr name, fs1, Print start :: t1)
  end
  /\ match fs !! zip_path with
     | None =>
         exists e, unzip_file w zip_path extract_to fs = (inl e, fs, [PathExists zip_path])
     | Some _ =>
         match unzip_file_body w zip_path extract_to fs with
         | (inl e, fs1, t1) =>
             exists start,
               unzip_file w zip_path extract_to fs
               = (inl e, fs1,
                  PathExists zip_path :: Print start
                  :: (t1 ++ if is_BadZipFile e
                            then [logged "Error: Invalid zip file: " e] else [])%list)
         | (inr dir, fs1, t1) =>
             exists start,
               unzip_file w zip_path extract_to fs
               = (inr dir, fs1, PathExists zip_path :: Print start :: t1)
         end
     end
  /\ match extract_from_location_body w zip_path extract_to cleanup fs with
     | (inl e, fs1, t1) =>
         extract_from_location w zip_path extract_to cleanup fs
         = (inl e, fs1, (t1 ++ [logged "Error in extract_from_location: " e])%list)
     | (inr dir, fs1, t1) =>
         extract_from_location w zip_path extract_to cleanup fs = (inr dir, fs1, t1)
     end
  /\ match download_and_extract_body w url filename extract_to cleanup show_progress fs with
     | (inl e, fs1, t1) =>
         download_and_extract w url filename extract_to cleanup show_progress fs
         = (inl e, fs1, (t1 ++ [logged "Error in download_and_extract: " e])%list)
     | (inr paths, fs1, t1) =>
         download_and_extract w url filename extract_to cleanup show_progress fs
         = (inr paths, fs1, t1)
     end.
Proof.
  split; [|split; [|split]].
  - rewrite download_file_run. cbv zeta.
    destruct (download_file_body w url _ show_progress fs) as [[[e|name] fs1] t1];
      [|by eexists].
    destruct (is_RequestException e); eexists; [done|by rewrite app_nil_r].
  - destruct (fs !! zip_path) as [content|] eqn:Hfile.
    + rewrite (unzip_file_guarded w zip_path extract_to fs content Hfile).
      destruct (unzip_file_body w zip_path extract_to fs) as [[[e|dir] fs1] t1];
        by eexists.
    + rewrite unzip_file_run, Hfile. by eexists.
  - unfold extract_from_location. rewrite try_except_log.
    by destruct (extract_from_location_body _ _ _ _ _) as [[[e|dir] fs1] t1].
  - unfold download_and_extract. rewrite try_except_log.
    by destruct (download_and_extract_body _ _ _ _ _ _ _) as [[[e|paths] fs1] t1].
Qed.


(** * Further properties of the four functions and of the script entry *)

(** ** Filename derivation, in full *)

Lemma last_occurrence (sep : ascii) (s : string) :
  PyStr.contains sep s = true ->
  exists pre suf, s = pre +:+ String sep suf /\ PyStr.contains sep suf = false.
Proof.
  induction s as [|c rest IH]; simpl; [done|].
  destruct (PyStr.contains sep rest) eqn:Hrest.
  - intros _. destruct (IH eq_refl) as (pre & suf & -> & Hsuf).
    by exists (String c pre), suf.
  - rewrite orb_false_r. intros Hc. apply Ascii.eqb_eq in Hc as ->.
    by exists EmptyString, rest.
Qed.

(** X1.  The derived file name never contains a ['/'], and it is the whole URL
    or what follows a ['/'] of the URL. *)
Theorem derive_filename_shape (url : string) :
  exists name,
    derive_filename url = Some name
    /\ PyStr.contains slash name = false
    /\ (url = name \/ exists pre, url = pre +:+ String slash name).
Proof.
  destruct (PyStr.contains slash url) eqn:Hurl.
  - destruct (last_occurrence slash url Hurl) as (pre & suf & -> & Hsuf).
    exists suf. split; [by apply derive_filename_suffix|]. split; [done|].
    right. by exists pre.
  - exists url. split; [by apply derive_filename_no_slash|]. auto.
Qed.

(** ** download_file touches one file *)

Lemma same_outside_refl filename fs : same_outside filename fs fs.
Proof. by intros path. Qed.

Lemma same_outside_trans filename fs1 fs2 fs3 :
  same_outside filename fs1 fs2 -> same_outside filename fs2 fs3 ->
  same_outside filename fs1 fs3.
Proof. intros H12 H23 path Hne. by rewrite H23, H12. Qed.

Lemma same_outside_insert filename (data : bytes) (fs : fsys) :
  same_outside filename fs (<[filename := data]> fs).
Proof. intros path Hne. by rewrite lookup_insert_ne. Qed.

#[local] Hint Resolve same_outside_refl same_outside_trans same_outside_insert : respects_db.

Lemma download_chunks_same_outside filename total_size show_progress cs downloaded :
  respects (same_outside filename) any_event
    (download_chunks filename total_size show_progress cs downloaded).
Proof.
  revert downloaded. induction cs as [|chunk rest IH]; intros downloaded; simpl.
  - respects_tac.
  - unfold file_write, progress_done, progress_percent, print_noend.
    respects_tac.
Qed.

Lemma save_response_same_outside w url filename show_progress r :
  respects (same_outside filename) any_event
    (save_response w url filename show_progress r).
Proof.
  pose proof download_chunks_same_outside.
  unfold save_response, raise_for_status, open_wb, response_content, file_write.
  respects_tac.
Qed.

(** X2.  Whatever happens, [download_file] leaves every path other than its
    local file name as it was. *)
Theorem download_file_frame (w : World) (url : string) (filename : option string)
    (show_progress : bool) (fs : fsys) (path : string) :
  path <> local_name url filename ->
  disk_of (download_file w url filename show_progress fs) !! path = fs !! path.
Proof.
  intros Hne. rewrite download_file_run. cbv zeta. rewrite download_file_body_run.
  destruct (http_get w url) as [e|r]; [done|]. cbv zeta.
  destruct (save_response_same_outside w url (local_name url filename) show_progress r fs)
    as [Hsame _].
  destruct (save_response w url _ show_progress r fs) as [[[e|x] fs1] t1];
    unfold disk_of in *; simpl in *; by apply Hsame.
Qed.

Lemma download_file_frame_witness :
  "notes.txt" <> local_name "http://h/data.zip" None
  /\ disk_of (download_file Demo.world "http://h/data.zip" None true Demo.disk)
       !! "notes.txt" = Some Demo.text_bytes.
Proof.
  assert ("notes.txt" <> local_name "http://h/data.zip" None) as Hne by done.
  split; [exact Hne|].
  rewrite (download_file_frame Demo.world "http://h/data.zip" None true Demo.disk
             "notes.txt" Hne).
  reflexivity.
Defined.

(** ** download_file when nothing fails, and when the file cannot be opened *)

Section DownloadSuccess.

Variable w : World.



End DownloadSuccess.





(** X5.  When [open] fails, [download_file] raises that error with the file
    system untouched; the error is not a [RequestException] in general, and
    then nothing but the first line is printed. *)
Theorem download_file_open_failure (w : World) (url : string) (filename : option string)
    (show_progress : bool) (fs : fsys) (r : response) (e : exn) :
  let f := local_name url filename in
  http_get w url = inr r ->
  is_error_status (status_code r) = false ->
  open_error w f = Some e ->
  download_file w url filename show_progress fs
  = (inl e, fs,
     [Print (downloading_line f url); HttpGet url; FileOpenW f]
     ++ if is_RequestException e then [logged "Error downloading file: " e] else [])%list.
Proof.
  intros f Hget Hs Hopen.
  rewrite download_file_run. cbv zeta. rewrite download_file_body_run, Hget. cbv zeta.
  fold f.
  assert (save_response w url f show_progress r fs = (inl e, fs, [FileOpenW f])) as ->.
  { pose proof (raise_for_status_run url r fs) as Hr. rewrite Hs in Hr.
    unfold save_response. unfold bind at 1. rewrite Hr.
    unfold bind at 1, open_wb. unfold bind at 1, emit. simpl. by rewrite Hopen. }
  unfold result_of, disk_of, events_of. simpl.
  by destruct (is_RequestException e).
Qed.

Lemma download_file_open_failure_witness :
  open_error Demo.world (local_name "http://h/dir/" None)
  = Some (Exn FileNotFoundError "[Errno 2] No such file or directory: ''")
  /\ stdout (events_of (download_file Demo.world "http://h/dir/" None true ∅))
     = [downloading_line "" "http://h/dir/"].
Proof.
  split; [reflexivity|].
  rewrite (download_file_open_failure Demo.world "http://h/dir/" None true ∅
             (Response 200 "OK" None (fun _ => Demo.ok_stream Demo.text_bytes))
             (Exn FileNotFoundError "[Errno 2] No such file or directory: ''"));
    reflexivity.
Defined.

(** ** unzip_file on a well-formed archive *)





(** ** What extraction leaves on disk *)

Lemma write_members_lookup (extract_to : string) (members : list member) (fs : fsys)
    (path : string) :
  write_members extract_to members fs !! path
  = match written extract_to members path with
    | Some data => Some data
    | None => fs !! path
    end.
Proof.
  unfold write_members. revert fs.
  induction members as [|m rest IH]; intros fs; simpl; [done|].
  rewrite IH. destruct (written extract_to rest path); [done|].
  destruct (decide (target_path extract_to (m_name m) = path)) as [->|Hne].
  - by rewrite lookup_insert_eq.
  - by rewrite lookup_insert_ne.
Qed.






(** X8.  Extracting again changes nothing: when the first [unzip_file] left the
    archive itself as it was, a second one from the file system it left
    gives the same result, the same events and the same file system. *)
Theorem unzip_file_again (w : World) (zip_path extract_to : string) (fs : fsys)
    (content : bytes) :
  fs !! zip_path = Some content ->
  disk_of (unzip_file w zip_path extract_to fs) !! zip_path = Some content ->
  unzip_file w zip_path extract_to (disk_of (unzip_file w zip_path extract_to fs))
  = unzip_file w zip_path extract_to fs.
Proof.
  intros Hfile Hkept.
  rewrite (unzip_file_run w zip_path extract_to (disk_of _)), Hkept.
  rewrite (unzip_file_run w zip_path extract_to fs), Hfile.
  unfold disk_of. simpl. f_equal. f_equal.
  apply map_eq. intros path. rewrite !write_members_lookup.
  by destruct (written extract_to (zip_reached w content) path).
Qed.

Lemma unzip_file_again_witness :
  Demo.disk !! "data.zip" = Some Demo.archive_bytes
  /\ disk_of (unzip_file Demo.world "data.zip" "out" Demo.disk) !! "data.zip"
     = Some Demo.archive_bytes
  /\ result_of (unzip_file Demo.world "data.zip" "out"
                  (disk_of (unzip_file Demo.world "data.zip" "out" Demo.disk)))
     = inr "out".
Proof.
  assert (Demo.disk !! "data.zip" = Some Demo.archive_bytes) as H1 by reflexivity.
  assert (disk_of (unzip_file Demo.world "data.zip" "out" Demo.disk) !! "data.zip"
          = Some Demo.archive_bytes) as H2 by (vm_compute; reflexivity).
  split; [exact H1|]. split; [exact H2|].
  rewrite (unzip_file_again Demo.world "data.zip" "out" Demo.disk _ H1 H2).
  reflexivity.
Defined.

(** ** The orchestrators when nothing fails, and after a cleanup *)

Lemma extract_from_location_cleaned (w : World) (zip_path extract_to : string) (fs : fsys)
    (extract_dir : string) :
  result_of (extract_from_location w zip_path extract_to true fs) = inr extract_dir ->
  disk_of (extract_from_location w zip_path extract_to true fs) !! zip_path = None.
Proof.
  rewrite extract_from_location_run.
  destruct (unzip_file w zip_path extract_to fs) as [[[e|d] fs1] t1]; [done|].
  rewrite cleanup_stage_run, os_remove_run.
  destruct (fs1 !! zip_path); [destruct (remove_error w zip_path)|]; try done.
  intros _. apply lookup_delete_eq.
Qed.

(** X9.  Extraction with cleanup cannot be repeated: once
    [extract_from_location] has returned with [cleanup=True], calling it
    again on the same path raises [FileNotFoundError] at the existence
    check, prints one line and changes nothing. *)
Theorem extract_from_location_once (w : World) (zip_path extract_to : string) (fs : fsys)
    (extract_dir : string) (cleanup : bool) :
  result_of (extract_from_location w zip_path extract_to true fs) = inr extract_dir ->
  let after := disk_of (extract_from_location w zip_path extract_to true fs) in
  let missing := Exn FileNotFoundError ("Zip file not found: " +:+ zip_path) in
  extract_from_location w zip_path extract_to cleanup after
  = (inl missing, after,
     [PathExists zip_path; logged "Error in extract_from_location: " missing]).
Proof.
  intros Hfirst after missing.
  pose proof (extract_from_location_cleaned w zip_path extract_to fs extract_dir Hfirst)
    as Hgone.
  fold after in Hgone.
  by rewrite extract_from_location_run, unzip_file_run, Hgone.
Qed.

Lemma extract_from_location_once_witness :
  result_of (extract_from_location Demo.world "data.zip" "out" true Demo.disk) = inr "out"
  /\ result_of
       (extract_from_location Demo.world "data.zip" "out" true
          (disk_of (extract_from_location Demo.world "data.zip" "out" true Demo.disk)))
     = inl (Exn FileNotFoundError "Zip file not found: data.zip").
Proof.
  assert (result_of (extract_from_location Demo.world "data.zip" "out" true Demo.disk)
          = inr "out") as H by reflexivity.
  split; [exact H|].
  by rewrite (extract_from_location_once Demo.world "data.zip" "out" Demo.disk "out" true H).
Defined.




(** ** The script entry *)

(** X11.  Run as a script, the module extracts [stereo_vision_data.zip] into the
    current directory: it requests nothing, removes nothing and loses no
    path; when the archive is not there it raises [FileNotFoundError] after
    printing one line, the file system untouched. *)
Theorem main_behaviour (w : World) (fs : fsys) :
  requested (events_of (main w fs)) = []
  /\ removed (events_of (main w fs)) = []
  /\ keeps_paths fs (disk_of (main w fs))
  /\ (fs !! "stereo_vision_data.zip" = None ->
      let missing :=
        Exn FileNotFoundError "Zip file not found: stereo_vision_data.zip" in
      main w fs
      = (inl missing, fs,
         [PathExists "stereo_vision_data.zip";
          logged "Error in extract_from_location: " missing])).
Proof.
  unfold main, default_extract_to, default_cleanup.
  rewrite extract_from_location_run.
  split; [|split; [|split]].
  4: { intros Hmissing. by rewrite unzip_file_run, Hmissing. }
  all: destruct (unzip_file_respects w "stereo_vision_data.zip" "." fs) as [Hkeep Hev];
    destruct (extract_events_quiet _ Hev) as (Hreq & Hrm & _);
    destruct (unzip_file w "stereo_vision_data.zip" "." fs) as [[[e|d] fs1] t1];
    unfold events_of, disk_of in *; simpl in *;
    rewrite ?requested_app, ?removed_app, ?Hreq, ?Hrm; done.
Qed.

Lemma main_behaviour_witness :
  Demo.disk !! "stereo_vision_data.zip" = None
  /\ result_of (main Demo.world Demo.disk)
     = inl (Exn FileNotFoundError "Zip file not found: stereo_vision_data.zip").
Proof.
  assert (Demo.disk !! "stereo_vision_data.zip" = None) as H by reflexivity.
  split; [exact H|].
  destruct (main_behaviour Demo.world Demo.disk) as (_ & _ & _ & Hrun).
  by rewrite (Hrun H).
Defined.

(** ** Output *)





(** X13.  When [requests.get] raises, [download_and_extract] stops after the
    request: nothing is opened, checked or extracted, the file system is
    untouched, and the exception comes out after the line of
    [download_file]'s handler (for a [RequestException]) and the line of its
    own. *)
Theorem download_and_extract_unreachable (w : World) (url : string)
    (filename : option string) (extract_to : string) (cleanup show_progress : bool)
    (fs : fsys) (e : exn) :
  http_get w url = inl e ->
  download_and_extract w url filename extract_to cleanup show_progress fs
  = (inl e, fs,
     [Print (downloading_line (local_name url filename) url); HttpGet url]
     ++ (if is_RequestException e then [logged "Error downloading file: " e] else [])
     ++ [logged "Error in download_and_extract: " e])%list.
Proof.
  intros Hget.
  rewrite download_and_extract_run, download_file_run. cbv zeta.
  rewrite download_file_body_run, Hget.
  by destruct (is_RequestException e).
Qed.

Lemma download_and_extract_unreachable_witness :
  http_get Demo.world "nowhere"
  = inl (Exn ConnectionError "Failed to establish a new connection")
  /\ disk_of (download_and_extract Demo.world "nowhere" None "out" true true Demo.disk)
     = Demo.disk.
Proof.
  assert (http_get Demo.world "nowhere"
          = inl (Exn ConnectionError "Failed to establish a new connection")) as H
    by reflexivity.
  split; [exact H|].
  by rewrite (download_and_extract_unreachable Demo.world "nowhere" None "out" true true
                Demo.disk _ H).
Defined.

(** X14.  The bar of line 52 is not clamped: it has [done] fill characters and
    [50 - done] blanks, either count taken as zero when negative, so it is
    50 characters long exactly when [0 <= done <= 50]. *)
Theorem progress_bar_length (done : Z) :
  PyStr.len (PyStr.repeat "=" done) = Z.max 0 done
  /\ PyStr.len (progress_bar done) = Z.max 0 done + Z.max 0 (50 - done)
  /\ (PyStr.len (progress_bar done) = 50 <-> 0 <= done <= 50).
Proof.
  unfold progress_bar, PyStr.len.
  rewrite string_length_append, !repeat_length. simpl. lia.
Qed.

Lemma progress_bar_length_witness :
  0 <= 25 <= 50 /\ PyStr.len (progress_bar 25) = 50.
Proof.
  assert (0 <= 25 <= 50) as H by lia.
  split; [exact H|].
  destruct (progress_bar_length 25) as (_ & _ & Hiff).
  exact (proj2 Hiff H).
Defined.
